(** * connect: handler dispatch, envelopes, buffer pool and procedure paths

    A shallow embedding of the Go package [connect] (handler.go, connect.go,
    buffer_pool.go, protocol path helper) together with the properties of
    its specification that were checked against it. *)

From Stdlib Require Import ZArith Lia Bool List Ascii String OrdersEx.
From stdpp Require Import base option gmap strings list fin_maps sorting.

Local Open Scope string_scope.
Local Open Scope list_scope.

(** ** Procedure paths *)

Module ProtoPath.

(** The separator of [strings.Split(url, "/")]. *)
Definition slash : ascii := "/"%char.

(** [strings.Split(s, "/")]: the substrings of [s] between the slashes.  The
    result has one element more than [s] has slashes, so it is never empty
    and [Split "" = [""]]. *)
Fixpoint Split (s : string) : list string :=
  match s with
  | EmptyString => [EmptyString]
  | String c rest =>
      if Ascii.eqb c slash then EmptyString :: Split rest
      else match Split rest with
           | hd :: tl => String c hd :: tl
           | [] => [String c EmptyString]
           end
  end.

(** Index into a slice; every use below is in range. *)
Definition at_index (segments : list string) (i : nat) : string :=
  nth i segments EmptyString.

(** [extractProtoPath] of the source: a switch on the number of segments. *)
Definition extractProtoPath (url : string) : string :=
  let segments := Split url in
  let segmentsLen := length segments in
  if (1 <? segmentsLen)%nat then
    let pkg := at_index segments (segmentsLen - 2) in
    let method := at_index segments (segmentsLen - 1) in
    "/" +:+ pkg +:+ "/" +:+ method
  else if (segmentsLen =? 1)%nat then
    let pkg := at_index segments 0 in
    "/" +:+ pkg
  else "/".

(** [strings.Contains(s, "/")]. *)
Fixpoint has_slash (s : string) : bool :=
  match s with
  | EmptyString => false
  | String c rest => Ascii.eqb c slash || has_slash rest
  end.

Definition nonempty (s : string) : bool := negb (String.eqb s EmptyString).

(** The normal form as the specification words it: the trailing two
    non-empty segments behind a slash each, [/segment] when there is one
    segment, [/] when there is none. *)
Definition spec_extractProtoPath (url : string) : string :=
  match rev (List.filter nonempty (Split url)) with
  | method :: pkg :: _ => "/" +:+ pkg +:+ "/" +:+ method
  | [segment] => "/" +:+ segment
  | [] => "/"
  end.

(** [strings.Count(s, "/")]. *)
Fixpoint slashes (s : string) : nat :=
  match s with
  | EmptyString => 0
  | String c rest => (if Ascii.eqb c slash then 1 else 0) + slashes rest
  end.

End ProtoPath.

(** ** State passing

    Go code that mutates what it is handed is written here as a function
    from the state before to a result and the state after. *)

Definition State (S A : Type) : Type := S -> A * S.

#[global] Instance State_ret {S} : MRet (State S) := fun A a s => (a, s).
#[global] Instance State_bind {S} : MBind (State S) :=
  fun A B k m s => let '(a, s') := m s in k a s'.

Definition gets {S A} (f : S -> A) : State S A := fun s => (f s, s).
Definition modify {S} (f : S -> S) : State S unit := fun s => (tt, f s).

(** ** Errors *)

Module Errors.

(** Modelled from the spec: code.go is not among the sources; the codes are
    the ones section 7 of the specification lists. *)
Inductive Code :=
| CodeCanceled | CodeUnknown | CodeInvalidArgument | CodeDeadlineExceeded
| CodeUnimplemented | CodeInternal | CodeUnavailable.

(** Go [error] values: the sentinels the package compares against, plain
    text errors, [fmt.Errorf] with a wrapped cause, and the package's own
    [*Error], a code around an underlying error. *)
Inductive error :=
| io_EOF
| context_Canceled
| context_DeadlineExceeded
| errors_New (text : string)
| fmt_Errorf (text : string) (wrapped : error)
| Error (code : Code) (err : error).

#[global] Instance Code_eq_dec : EqDecision Code.
Proof. solve_decision. Defined.

#[global] Instance error_eq_dec : EqDecision error.
Proof. solve_decision. Defined.

(** [errors.Unwrap]. *)
Definition Unwrap (err : error) : option error :=
  match err with
  | fmt_Errorf _ wrapped => Some wrapped
  | Error _ err => Some err
  | _ => None
  end.

(** [errors.Is(err, target)]: [target] is met somewhere along the chain of
    wrapped errors. *)
Fixpoint errors_Is (err target : error) : bool :=
  if decide (err = target) then true
  else match err with
       | fmt_Errorf _ wrapped => errors_Is wrapped target
       | Error _ err => errors_Is err target
       | _ => false
       end.

(** The text of an error, [err.Error()]. *)
Fixpoint Error_text (err : error) : string :=
  match err with
  | io_EOF => "EOF"
  | context_Canceled => "context canceled"
  | context_DeadlineExceeded => "context deadline exceeded"
  | errors_New text => text
  | fmt_Errorf text _ => text
  | Error _ err => Error_text err
  end.

(** Modelled from the spec: error.go is not among the sources.  [NewError]
    annotates an underlying error with a code; [errorf] does the same for a
    formatted message. *)
Definition NewError (c : Code) (underlying : error) : error := Error c underlying.
Definition errorf (c : Code) (text : string) : error := NewError c (errors_New text).

(** [CodeOf]: the code of a package error, [CodeUnknown] for any other. *)
Definition CodeOf (err : error) : Code :=
  match err with
  | Error c _ => c
  | _ => CodeUnknown
  end.

(** The [Message] method of the package error. *)
Definition Message (err : error) : string :=
  match err with
  | Error _ underlying => Error_text underlying
  | _ => Error_text err
  end.

End Errors.

(** ** HTTP headers *)

Module Header.

(** The contents of a [http.Header]: a map from canonical header names to
    the list of their values. *)
Abbreviation HeaderMap := (gmap string (list string)).

(** [http.Header] is a Go map, that is a reference: two holders of the same
    header see each other's writes.  A header is a location in a store of
    header contents; [None] in a field of this type is the nil map. *)
Definition loc := positive.
Abbreviation Heap := (gmap loc HeaderMap).

(** [Header.Get]: the first value under the key, or the empty string.  The
    keys used by the package ([Content-Type], [Allow], [Accept-Post]) are in
    canonical form already, so [textproto.CanonicalMIMEHeaderKey] leaves
    them as they are. *)
Definition Get (m : HeaderMap) (key : string) : string :=
  match m !! key with
  | Some (v :: _) => v
  | _ => ""
  end.

(** [Header.Set]: the key now has exactly this one value. *)
Definition Set_ (m : HeaderMap) (key value : string) : HeaderMap :=
  <[key := [value]]> m.

(** The contents behind a reference. *)
Definition contents (h : Heap) (l : loc) : HeaderMap := default ∅ (h !! l).

(** [make(http.Header)]: a new, empty map at a location not in use. *)
Definition make (h : Heap) : loc * Heap :=
  let l := fresh (dom h) in (l, <[l := ∅]> h).

(** A write through a reference. *)
Definition set_at (l : loc) (key value : string) (h : Heap) : Heap :=
  <[l := Set_ (contents h l) key value]> h.

End Header.

(** ** Envelopes and streaming connections (connect.go) *)

Module Connect.
Import Errors Header.

(** The Go types a message can have, with their values, their zero value
    and their name as [%T] prints it.  Generic code is generic in a type
    of this universe; an interface value of type [any] carries its type. *)
Class MessageTypes := {
  ty : Type;
  ty_eq_dec :: EqDecision ty;
  El : ty -> Type;
  zero : forall t, El t;
  typeName : ty -> string;
}.

(** [StreamType] is a [uint8] used as two bits. *)
Definition StreamType := Z.
Definition StreamTypeUnary : StreamType := 0%Z.
Definition StreamTypeClient : StreamType := 1%Z.
Definition StreamTypeServer : StreamType := 2%Z.
Definition StreamTypeBidi : StreamType := Z.lor StreamTypeClient StreamTypeServer.

Record Spec := mkSpec {
  Spec_StreamType : StreamType;
  Spec_Procedure : string;
  Spec_IsClient : bool;
}.

Record Peer := mkPeer { Peer_Addr : string }.

(** The zero values [Spec{}] and [Peer{}]. *)
Definition zeroSpec : Spec := mkSpec 0%Z "" false.
Definition zeroPeer : Peer := mkPeer "".

(** [Request[T]]: [Msg] stands for the message behind the pointer; [header]
    is a map reference, [None] while it is nil. *)
Record Request (T : Type) := mkRequest {
  Request_Msg : T;
  Request_spec : Spec;
  Request_peer : Peer;
  Request_header : option loc;
}.
Arguments mkRequest {T}.
Arguments Request_Msg {T}.
Arguments Request_spec {T}.
Arguments Request_peer {T}.
Arguments Request_header {T}.

Record Response (T : Type) := mkResponse {
  Response_Msg : T;
  Response_header : option loc;
  Response_trailer : option loc;
}.
Arguments mkResponse {T}.
Arguments Response_Msg {T}.
Arguments Response_header {T}.
Arguments Response_trailer {T}.

Definition NewRequest {T} (message : T) : Request T :=
  mkRequest message zeroSpec zeroPeer None.

Definition NewResponse {T} (message : T) : Response T :=
  mkResponse message None None.

(** [Request.Header]: the receiver is a pointer, so the assignment to
    [r.header] changes the request itself; the request after the call is
    returned next to the result.  The result has Go's type [http.Header],
    which has a nil value. *)
Definition Request_Header {T} (r : Request T) : State Heap (option loc * Request T) :=
  r ← match Request_header r with
      | None => fun h =>
          let '(l, h') := make h in
          (mkRequest (Request_Msg r) (Request_spec r) (Request_peer r) (Some l), h')
      | Some _ => mret r
      end;
  mret (Request_header r, r).

(** [Response.Header]. *)
Definition Response_Header {T} (r : Response T) : State Heap (option loc * Response T) :=
  r ← match Response_header r with
      | None => fun h =>
          let '(l, h') := make h in
          (mkResponse (Response_Msg r) (Some l) (Response_trailer r), h')
      | Some _ => mret r
      end;
  mret (Response_header r, r).

(** [Response.Trailer]. *)
Definition Response_Trailer {T} (r : Response T) : State Heap (option loc * Response T) :=
  r ← match Response_trailer r with
      | None => fun h =>
          let '(l, h') := make h in
          (mkResponse (Response_Msg r) (Response_header r) (Some l), h')
      | Some _ => mret r
      end;
  mret (Response_trailer r, r).

(** What one lazily allocating accessor promises: the call on [r] in the
    store [h] returned [res], left the envelope as [r'] and the store as
    [h']; [field] reads the map out of an envelope, [call] is the accessor
    itself. *)
Definition lazy_accessor {R : Type} (field : R -> option loc)
    (call : R -> State Heap (option loc * R))
    (r : R) (h : Heap) (res : option loc) (r' : R) (h' : Heap) : Prop :=
  exists l : loc,
    res = Some l /\ field r' = Some l /\
    match field r with
    | None => h !! l = None /\ h' = <[l := ∅]> h /\ contents h' l = ∅
    | Some l0 => l = l0 /\ r' = r /\ h' = h
    end /\
    (forall h'' : Heap, call r' h'' = ((Some l, r'), h'')) /\
    (forall key value,
       call r' (set_at l key value h') = ((Some l, r'), set_at l key value h') /\
       Get (contents (set_at l key value h') l) key = value).

Section Conns.
Context `{MessageTypes}.

(** An [any] holding a pointer to a message. *)
Definition any := { t : ty & El t }.

(** [AnyRequest] and [AnyResponse] are sealed: their only implementations
    are [*Request[T]] and [*Response[T]], for some message type [T]. *)
Definition AnyRequest := { t : ty & Request (El t) }.
Definition AnyResponse := { t : ty & Response (El t) }.

Definition Request_Any {t : ty} (r : Request (El t)) : any := existT t (Request_Msg r).
Definition Response_Any {t : ty} (r : Response (El t)) : any := existT t (Response_Msg r).

(** The client's view of a stream.  [W] is everything a connection can
    read or change.  [Receive] is handed the message it unmarshals into
    and gives back what the message holds afterwards. *)
Record StreamingClientConn (W : Type) := {
  CC_Spec : State W Spec;
  CC_Peer : State W Peer;
  CC_Send : any -> State W (option error);
  CC_RequestHeader : State W (option loc);
  CC_CloseRequest : State W (option error);
  CC_Receive : forall t : ty, El t -> State W (El t * option error);
  CC_ResponseHeader : State W (option loc);
  CC_ResponseTrailer : State W (option loc);
  CC_CloseResponse : State W (option error);
}.
Arguments CC_Receive {W}.
Arguments CC_ResponseHeader {W}.
Arguments CC_ResponseTrailer {W}.

(** The server's view of a stream. *)
Record StreamingHandlerConn (W : Type) := {
  HC_Spec : State W Spec;
  HC_Peer : State W Peer;
  HC_Receive : forall t : ty, El t -> State W (El t * option error);
  HC_RequestHeader : State W (option loc);
  HC_Send : any -> State W (option error);
  HC_ResponseHeader : State W (option loc);
  HC_ResponseTrailer : State W (option loc);
}.

(** [handlerConnCloser]: a [StreamingHandlerConn] with [Close]. *)
Record handlerConnCloser (W : Type) := {
  HCC_conn : StreamingHandlerConn W;
  HCC_Close : option error -> State W (option error);
}.

(** [receiveUnaryResponse[T]]. *)
Definition receiveUnaryResponse {W} (T : ty) (conn : StreamingClientConn W)
  : State W (Response (El T) + error) :=
  '(msg, err) ← CC_Receive conn T (zero T);
  match err with
  | Some err => mret (inr err)
  | None =>
      '(_, err) ← CC_Receive conn T (zero T);
      match err with
      | None =>
          mret (inr (NewError CodeUnknown (errors_New "unary stream has multiple messages")))
      | Some err =>
          if negb (errors_Is err io_EOF) then mret (inr (NewError CodeUnknown err))
          else
            header ← CC_ResponseHeader conn;
            trailer ← CC_ResponseTrailer conn;
            mret (inl (mkResponse msg header trailer))
      end
  end.

End Conns.

Arguments CC_Receive {_ W}.
Arguments CC_ResponseHeader {_ W}.
Arguments CC_ResponseTrailer {_ W}.
Arguments HC_Spec {_ W}.
Arguments HC_Peer {_ W}.
Arguments HC_Receive {_ W}.
Arguments HC_RequestHeader {_ W}.
Arguments HC_Send {_ W}.
Arguments HC_ResponseHeader {_ W}.
Arguments HC_ResponseTrailer {_ W}.
Arguments HCC_conn {_ W}.
Arguments HCC_Close {_ W}.

End Connect.

(** ** The buffer pool (buffer_pool.go) *)

Module BufferPool.

Definition initialBufferSize : Z := 512.
Definition maxRecycleBufferSize : Z := Z.shiftl 8 20.

(** A [bytes.Buffer]: the bytes it holds and the capacity of the slice
    behind it. *)
Record Buffer := mkBuffer {
  Bytes : list Byte.byte;
  Cap : Z;
}.

(** [bytes.NewBuffer(make([]byte, 0, initialBufferSize))], the pool's [New]. *)
Definition New : Buffer := mkBuffer [] initialBufferSize.

(** [Buffer.Reset]: empties the buffer and keeps its storage. *)
Definition Reset (b : Buffer) : Buffer := mkBuffer [] (Cap b).

(** Buffers are handled through pointers.  The state is the store of all
    buffers and the pointers the [sync.Pool] holds at the moment. *)
Definition ptr := positive.

Record PoolState := mkPoolState {
  buffers : gmap ptr Buffer;
  pool : list ptr;
}.

Definition newBufferPool : PoolState := mkPoolState ∅ [].

(** [bufferPool.Get].  [sync.Pool.Get] hands out any one of the pointers it
    holds and forgets it, or calls [New] when it holds none or chooses to
    hold none; [pick] is that choice.  The type assertion of the source
    cannot fail since the pool holds buffers only. *)
Definition Get (pick : option nat) : State PoolState ptr :=
  fun st =>
    match pick ≫= (fun i => pool st !! i ≫= (fun p => Some (i, p))) with
    | Some (i, p) => (p, mkPoolState (buffers st) (delete i (pool st)))
    | None =>
        let p := fresh (dom (buffers st)) in
        (p, mkPoolState (<[p := New]> (buffers st)) (pool st))
    end.

(** [bufferPool.Put].  A pointer to no buffer (nil) is not a case a caller
    produces; the state is left as it is there. *)
Definition Put (buffer : ptr) : State PoolState unit :=
  fun st =>
    match buffers st !! buffer with
    | None => (tt, st)
    | Some b =>
        if (maxRecycleBufferSize <? Cap b)%Z then (tt, st)
        else (tt, mkPoolState (<[buffer := Reset b]> (buffers st))
                              (buffer :: pool st))
    end.

(** What callers do with buffers of their own. *)
Definition alloc (b : Buffer) (st : PoolState) : ptr * PoolState :=
  let p := fresh (dom (buffers st)) in
  (p, mkPoolState (<[p := b]> (buffers st)) (pool st)).

Definition store (p : ptr) (b : Buffer) (st : PoolState) : PoolState :=
  mkPoolState (<[p := b]> (buffers st)) (pool st).

Definition drop (i : nat) (st : PoolState) : PoolState :=
  mkPoolState (buffers st) (delete i (pool st)).

(** The states a pool and its callers can reach when the callers keep their
    hands off a buffer once they have put it back, and put back only
    buffers of capacity [lo] or more.  Callers make buffers of their own
    ([bytes.NewBuffer]), write to and read from the buffers they hold (the
    capacity of a [bytes.Buffer] does not shrink), get and put; the
    [sync.Pool] may let go of a buffer at any time. *)
Inductive reachable (lo : Z) : PoolState -> Prop :=
| reach_new : reachable lo newBufferPool
| reach_alloc st b :
    reachable lo st -> reachable lo (alloc b st).2
| reach_use st p b b' :
    reachable lo st -> p ∉ pool st -> buffers st !! p = Some b ->
    (Cap b <= Cap b')%Z -> reachable lo (store p b' st)
| reach_get st pick :
    reachable lo st -> reachable lo (Get pick st).2
| reach_put st p b :
    reachable lo st -> p ∉ pool st -> buffers st !! p = Some b ->
    (lo <= Cap b)%Z -> reachable lo (Put p st).2
| reach_drop st i :
    reachable lo st -> reachable lo (drop i st).

(** What holds of the buffers in the pool. *)
Definition pooled_ok (lo : Z) (st : PoolState) : Prop :=
  forall p, p ∈ pool st ->
    exists b, buffers st !! p = Some b /\ Bytes b = [] /\
              (Z.min lo initialBufferSize <= Cap b)%Z.

End BufferPool.

(** ** The handler (handler.go) *)

Module Handler.
Import Errors Header Connect.

(** [net/http] constants. *)
Definition MethodPost : string := "POST".
Definition StatusHTTPVersionNotSupported : Z := 505.
Definition StatusMethodNotAllowed : Z := 405.
Definition StatusUnsupportedMediaType : Z := 415.

(** A [context.Context] as the handler finds it: which context it is and
    what its [Err] answers. *)
Record Context := mkContext {
  Context_name : string;
  Context_Err : option error;
}.

(** The fields of [http.Request] the handler reads. *)
Record HTTPRequest := mkHTTPRequest {
  Method : string;
  ProtoMajor : Z;
  Request_Header_map : loc;
  Request_Context : Context;
}.

(** [request.WithContext(ctx)]: a copy of the request with another
    context; the copy shares the header map. *)
Definition WithContext (request : HTTPRequest) (ctx : Context) : HTTPRequest :=
  mkHTTPRequest (Method request) (ProtoMajor request) (Request_Header_map request) ctx.

(** A [http.ResponseWriter]: the header map it hands out. *)
Record ResponseWriter := mkResponseWriter { RW_Header : loc }.

(** How a streaming implementation ends: it returns, with or without an
    error, or it panics. *)
Inductive ImplResult :=
| Returns (err : option error)
| Panics (value : string).

(** How [ServeHTTP] ends. *)
Inductive Outcome :=
| Done
| Panicking (value : string).

(** The calls [ServeHTTP] makes on the protocol handler, the stream and the
    implementation, in the order it makes them.  [EvSetTimeout] and
    [EvNewConn] carry the request as it is passed and the [Content-Type]
    its header map holds at that moment. *)
Inductive Event :=
| EvSetTimeout (request : HTTPRequest) (contentType : string)
| EvNewConn (request : HTTPRequest) (contentType : string)
| EvImplementation (ctx : Context)
| EvClose (err : option error)
| EvCancel.

Section Model.
Context `{MessageTypes}.

(** The state of everything outside the handler: connections, the network,
    whatever user code keeps. *)
Context {U : Type}.

(** What the code called by the handler can read and change: the header
    maps, the response head once [WriteHeader] has sent it (status and the
    header as it was then), and the rest. *)
Record IO := mkIO {
  heap : Heap;
  written : option (Z * HeaderMap);
  ext : U;
}.

(** What [ServeHTTP] runs in: the above and the record of its calls. *)
Record World := mkWorld {
  io : IO;
  trace : list Event;
}.

Definition liftHeap {A} (m : State Heap A) : State IO A :=
  fun s => let '(a, h) := m (heap s) in (a, mkIO h (written s) (ext s)).

Definition liftIO {A} (m : State IO A) : State World A :=
  fun w => let '(a, s) := m (io w) in (a, mkWorld s (trace w)).

Definition emit (e : Event) : State World unit :=
  modify (fun w => mkWorld (io w) (trace w ++ [e])).

(** [w.Header().Set(key, value)]. *)
Definition RW_Header_Set (w : ResponseWriter) (key value : string) : State IO unit :=
  modify (fun s => mkIO (set_at (RW_Header w) key value (heap s)) (written s) (ext s)).

(** [w.WriteHeader(code)]: the first call sends the status with the header
    as it is; later calls send nothing. *)
Definition WriteHeader (w : ResponseWriter) (code : Z) : State IO unit :=
  modify (fun s =>
    match written s with
    | Some _ => s
    | None => mkIO (heap s) (Some (code, contents (heap s) (RW_Header w))) (ext s)
    end).

(** [request.Header.Get(key)] and [request.Header.Set(key, value)]. *)
Definition Request_Header_Get (request : HTTPRequest) (key : string) : State IO string :=
  gets (fun s => Get (contents (heap s) (Request_Header_map request)) key).

Definition Request_Header_Set (request : HTTPRequest) (key value : string) : State IO unit :=
  modify (fun s => mkIO (set_at (Request_Header_map request) key value (heap s))
                        (written s) (ext s)).

Definition CancelFunc := State IO unit.

(** The [protocolHandler] interface (protocol.go declares it). *)
Record protocolHandler := {
  ContentTypes : gset string;
  SetTimeout : HTTPRequest -> State IO (Context * option CancelFunc * option error);
  NewConn : ResponseWriter -> HTTPRequest -> State IO (option (handlerConnCloser IO));
}.

Definition StreamingHandlerFunc :=
  Context -> StreamingHandlerConn IO -> State IO ImplResult.

(** The result pair [(AnyResponse, error)] of a unary function: a response,
    or an error. *)
Definition UnaryFunc :=
  Context -> AnyRequest -> State IO (AnyResponse + error).

(** The [Interceptor] interface (interceptor.go declares it), as far as
    handlers use it. *)
Record Interceptor := {
  WrapUnary : UnaryFunc -> UnaryFunc;
  WrapStreamingHandler : StreamingHandlerFunc -> StreamingHandlerFunc;
}.

Record Handler := mkHandler {
  spec : Spec;
  implementation : StreamingHandlerFunc;
  protocolHandlers : list protocolHandler;
  acceptPost : string;
}.

(** Modelled from the spec: [sortedAcceptPostValue] is in protocol.go,
    which is not among the sources.  It lists the content types of all
    protocol handlers, each once, in lexicographic order, separated by a
    comma and a space. *)
Definition string_le (a b : string) : Prop := String.leb a b = true.

#[global] Instance string_le_dec : RelDecision string_le.
Proof. intros a b. unfold string_le. apply _. Defined.

Definition supportedContentTypes (handlers : list protocolHandler) : gset string :=
  ⋃ (ContentTypes <$> handlers).

Definition sortedContentTypes (handlers : list protocolHandler) : list string :=
  merge_sort string_le (elements (supportedContentTypes handlers)).

Definition sortedAcceptPostValue (handlers : list protocolHandler) : string :=
  String.concat ", " (sortedContentTypes handlers).

(** [canonicalizeContentType] is in protocol.go as well; the handler is
    read for any such function. *)
Context (canonicalizeContentType : string -> string).

(** The loop over [h.protocolHandlers]: the first handler whose content
    types contain [contentType], [None] for the nil the source is left
    with when there is none. *)
Definition findProtocolHandler (h : Handler) (contentType : string)
  : option protocolHandler :=
  List.find (fun handler => bool_decide (contentType ∈ ContentTypes handler))
            (protocolHandlers h).

(** The [Content-Type] of the request at this moment, for the record of
    calls. *)
Definition seenContentType (request : HTTPRequest) : State World string :=
  liftIO (Request_Header_Get request "Content-Type").

(** [isBidi] of [ServeHTTP]: both stream bits are set. *)
Definition isBidi (h : Handler) : bool :=
  (Z.land (Spec_StreamType (spec h)) StreamTypeBidi =? StreamTypeBidi)%Z.

(** The part of [ServeHTTP] that establishes a stream and serves the RPC,
    once the protocol handler is found.  The deferred [cancel] runs when
    the function is left, by return or by a panic of the implementation. *)
Definition serveStream (h : Handler) (protocolHandler : protocolHandler)
    (responseWriter : ResponseWriter) (request : HTTPRequest)
    (contentType : string) : State World Outcome :=
  liftIO (Request_Header_Set request "Content-Type" contentType);;
  seen ← seenContentType request;
  emit (EvSetTimeout request seen);;
  '(ctx, cancel, timeoutErr) ← liftIO (SetTimeout protocolHandler request);
  let ctx := match timeoutErr with
             | Some _ => Request_Context request
             | None => ctx
             end in
  outcome ← (
    seen ← seenContentType request;
    emit (EvNewConn (WithContext request ctx) seen);;
    connCloser ← liftIO (NewConn protocolHandler responseWriter
                           (WithContext request ctx));
    match connCloser with
    | None => mret Done
    | Some connCloser =>
        match timeoutErr with
        | Some timeoutErr =>
            emit (EvClose (Some timeoutErr));;
            liftIO (HCC_Close connCloser (Some timeoutErr));;
            mret Done
        | None =>
            emit (EvImplementation ctx);;
            result ← liftIO (implementation h ctx (HCC_conn connCloser));
            match result with
            | Returns err =>
                emit (EvClose err);;
                liftIO (HCC_Close connCloser err);;
                mret Done
            | Panics value => mret (Panicking value)
            end
        end
    end);
  match cancel with
  | Some cancel => emit EvCancel;; liftIO cancel
  | None => mret tt
  end;;
  mret outcome.

(** [Handler.ServeHTTP]. *)
Definition ServeHTTP (h : Handler) (responseWriter : ResponseWriter)
    (request : HTTPRequest) : State World Outcome :=
  if isBidi h && (ProtoMajor request <? 2)%Z then
    liftIO (WriteHeader responseWriter StatusHTTPVersionNotSupported);;
    mret Done
  else if negb (String.eqb (Method request) MethodPost) then
    liftIO (RW_Header_Set responseWriter "Allow" MethodPost);;
    liftIO (WriteHeader responseWriter StatusMethodNotAllowed);;
    mret Done
  else
    value ← liftIO (Request_Header_Get request "Content-Type");
    let contentType := canonicalizeContentType value in
    match findProtocolHandler h contentType with
    | None =>
        liftIO (RW_Header_Set responseWriter "Accept-Post" (acceptPost h));;
        liftIO (WriteHeader responseWriter StatusUnsupportedMediaType);;
        mret Done
    | Some protocolHandler =>
        serveStream h protocolHandler responseWriter request contentType
    end.

(** The [Close] calls in a record of calls, with their arguments. *)
Definition closes (events : list Event) : list (option error) :=
  omap (fun e => match e with EvClose err => Some err | _ => None end) events.

(** The number of times the implementation was called. *)
Definition implementationCalls (events : list Event) : nat :=
  length (List.filter (fun e => match e with EvImplementation _ => true | _ => false end)
                      events).

(** The [Content-Type] the request carries when it reaches the handler, in
    canonical form. *)
Definition requestContentType (request : HTTPRequest) (s : IO) : string :=
  canonicalizeContentType
    (Get (contents (heap s) (Request_Header_map request)) "Content-Type").

(** The state once the request carries [contentType]. *)
Definition withContentType (request : HTTPRequest) (contentType : string) (s : IO) : IO :=
  mkIO (set_at (Request_Header_map request) "Content-Type" contentType (heap s))
       (written s) (ext s).

(** The state once the response writer has been told a header and a
    status. *)
Definition respond (w : ResponseWriter) (key value : string) (code : Z) (s : IO) : IO :=
  (WriteHeader w code (RW_Header_Set w key value s).2).2.

(** The calls of the deferred [cancel]. *)
Definition cancelEvents (cancel : option CancelFunc) : list Event :=
  match cancel with Some _ => [EvCancel] | None => [] end.

Definition runCancel (cancel : option CancelFunc) (s : IO) : IO :=
  match cancel with Some cancel => (cancel s).2 | None => s end.

(** *** Constructors *)

(** The type assertion of [request] to [*Request[Req]]. *)
Definition assertRequest (Req : ty) (request : AnyRequest)
  : option (Request (El Req)) :=
  match request with
  | existT t r =>
      match decide (t = Req) with
      | left e => Some (eq_rect t (fun t => Request (El t)) r Req e)
      | right _ => None
      end
  end.

(** The function [untyped] of [NewUnaryHandler] before an interceptor is
    wrapped around it.  The message of the internal error ends in the type
    of the request, as [%T] prints it. *)
Definition unaryAdapter (Req Res : ty)
    (unary : Context -> Request (El Req) -> State IO (Response (El Res) + error))
  : UnaryFunc :=
  fun ctx request =>
    match Context_Err ctx with
    | Some err => mret (inr err)
    | None =>
        match assertRequest Req request with
        | None =>
            mret (inr (errorf CodeInternal
                         ("unexpected handler request type "
                            +:+ typeName (projT1 request))))
        | Some typed =>
            result ← unary ctx typed;
            mret (match result with
                  | inl response => inl (existT Res response)
                  | inr err => inr err
                  end)
        end
    end.

(** [mergeHeaders] is in header.go, which is not among the sources. *)
Context (mergeHeaders : option loc -> option loc -> State IO unit).

(** The function [implementation] of [NewUnaryHandler]. *)
Definition unaryImplementation (Req : ty) (untyped : UnaryFunc)
  : Context -> StreamingHandlerConn IO -> State IO (option error) :=
  fun ctx conn =>
    '(msg, err) ← HC_Receive conn Req (zero Req);
    match err with
    | Some err => mret (Some err)
    | None =>
        spec ← HC_Spec conn;
        peer ← HC_Peer conn;
        header ← HC_RequestHeader conn;
        let request : AnyRequest := existT Req (mkRequest msg spec peer header) in
        result ← untyped ctx request;
        match result with
        | inr err => mret (Some err)
        | inl (existT t response) =>
            into ← HC_ResponseHeader conn;
            '(from, response) ← liftHeap (Response_Header response);
            mergeHeaders into from;;
            into ← HC_ResponseTrailer conn;
            '(from, response) ← liftHeap (Response_Trailer response);
            mergeHeaders into from;;
            HC_Send conn (Response_Any response)
        end
    end.

(** Codecs and compression pools are declared in files that are not among
    the sources; the configuration is read for any such types. *)
Context {Codec compressionPool readOnlyCodecs readOnlyCompressionPools : Type}.

Record handlerConfig := mkHandlerConfig {
  CompressionPools : gmap string compressionPool;
  CompressionNames : list string;
  Codecs : gmap string Codec;
  CompressMinBytes : Z;
  Config_Interceptor : option Interceptor;
  Procedure : string;
  HandleGRPC : bool;
  HandleGRPCWeb : bool;
  Config_BufferPool : BufferPool.PoolState;
  ReadMaxBytes : Z;
  SendMaxBytes : Z;
}.

(** A [HandlerOption] is its [applyToHandler]. *)
Definition HandlerOption := handlerConfig -> handlerConfig.

Context (withProtoBinaryCodec withProtoJSONCodecs withGzip : HandlerOption).

Definition newHandlerConfig (procedure : string) (options : list HandlerOption)
  : handlerConfig :=
  let protoPath := ProtoPath.extractProtoPath procedure in
  let config :=
    mkHandlerConfig ∅ [] ∅ 0 None protoPath true true BufferPool.newBufferPool 0 0 in
  let config := withProtoBinaryCodec config in
  let config := withProtoJSONCodecs config in
  let config := withGzip config in
  fold_left (fun config opt => opt config) options config.

Definition newSpec (c : handlerConfig) (streamType : StreamType) : Spec :=
  mkSpec streamType (Procedure c) false.

Record protocolHandlerParams := mkProtocolHandlerParams {
  Params_Spec : Spec;
  Params_Codecs : readOnlyCodecs;
  Params_CompressionPools : readOnlyCompressionPools;
  Params_CompressMinBytes : Z;
  Params_BufferPool : BufferPool.PoolState;
  Params_ReadMaxBytes : Z;
  Params_SendMaxBytes : Z;
}.

(** The [protocol] interface and its three implementations are in
    protocol.go and the files of the protocols. *)
Record protocol := { NewHandler : protocolHandlerParams -> protocolHandler }.

Context (protocolConnect : protocol) (protocolGRPC : bool -> protocol).
Context (newReadOnlyCodecs : gmap string Codec -> readOnlyCodecs).
Context (newReadOnlyCompressionPools :
           gmap string compressionPool -> list string -> readOnlyCompressionPools).

Definition newProtocolHandlers (c : handlerConfig) (streamType : StreamType)
  : list protocolHandler :=
  let protocols := [protocolConnect] in
  let protocols := if HandleGRPC c then protocols ++ [protocolGRPC false] else protocols in
  let protocols := if HandleGRPCWeb c then protocols ++ [protocolGRPC true] else protocols in
  let codecs := newReadOnlyCodecs (Codecs c) in
  let compressors := newReadOnlyCompressionPools (CompressionPools c) (CompressionNames c) in
  (fun protocol =>
     NewHandler protocol
       (mkProtocolHandlerParams (newSpec c streamType) codecs compressors
          (CompressMinBytes c) (Config_BufferPool c) (ReadMaxBytes c) (SendMaxBytes c)))
  <$> protocols.

(** The unary function after the interceptor of the configuration, if
    there is one, has been wrapped around it. *)
Definition wrapUnary (config : handlerConfig) (untyped : UnaryFunc) : UnaryFunc :=
  match Config_Interceptor config with
  | Some interceptor => WrapUnary interceptor untyped
  | None => untyped
  end.

Definition NewUnaryHandler (Req Res : ty) (procedure : string)
    (unary : Context -> Request (El Req) -> State IO (Response (El Res) + error))
    (options : list HandlerOption) : Handler :=
  let untyped := unaryAdapter Req Res unary in
  let config := newHandlerConfig procedure options in
  let untyped := wrapUnary config untyped in
  let implementation : StreamingHandlerFunc :=
    fun ctx conn => err ← unaryImplementation Req untyped ctx conn; mret (Returns err) in
  let protocolHandlers := newProtocolHandlers config StreamTypeUnary in
  mkHandler (newSpec config StreamTypeUnary) implementation protocolHandlers
            (sortedAcceptPostValue protocolHandlers).

Definition newStreamHandler (procedure : string) (streamType : StreamType)
    (implementation : StreamingHandlerFunc) (options : list HandlerOption) : Handler :=
  let config := newHandlerConfig procedure options in
  let implementation :=
    match Config_Interceptor config with
    | Some ic => WrapStreamingHandler ic implementation
    | None => implementation
    end in
  let protocolHandlers := newProtocolHandlers config streamType in
  mkHandler (newSpec config streamType) implementation protocolHandlers
            (sortedAcceptPostValue protocolHandlers).

(** *** Streaming constructors *)

(** [ClientStream], [ServerStream] and [BidiStream] are declared in
    handler_stream.go, which is not among the sources; the constructors
    build each as a struct around the connection. *)
Record ClientStream (Req : ty) := mkClientStream {
  ClientStream_conn : StreamingHandlerConn IO;
}.

Record ServerStream (Res : ty) := mkServerStream {
  ServerStream_conn : StreamingHandlerConn IO;
}.

Record BidiStream (Req Res : ty) := mkBidiStream {
  BidiStream_conn : StreamingHandlerConn IO;
}.

(** [NewClientStreamHandler].  The header and the trailer of the response
    are read from its fields, not through the accessors. *)
Definition NewClientStreamHandler (Req Res : ty) (procedure : string)
    (implementation : Context -> ClientStream Req -> State IO (Response (El Res) + error))
    (options : list HandlerOption) : Handler :=
  newStreamHandler procedure StreamTypeClient
    (fun ctx conn =>
       let stream := mkClientStream Req conn in
       result ← implementation ctx stream;
       match result with
       | inr err => mret (Returns (Some err))
       | inl res =>
           into ← HC_ResponseHeader conn;
           mergeHeaders into (Response_header res);;
           into ← HC_ResponseTrailer conn;
           mergeHeaders into (Response_trailer res);;
           err ← HC_Send conn (existT Res (Response_Msg res) : any);
           mret (Returns err)
       end)
    options.

(** [NewServerStreamHandler]. *)
Definition NewServerStreamHandler (Req Res : ty) (procedure : string)
    (implementation :
       Context -> Request (El Req) -> ServerStream Res -> State IO (option error))
    (options : list HandlerOption) : Handler :=
  newStreamHandler procedure StreamTypeServer
    (fun ctx conn =>
       '(msg, err) ← HC_Receive conn Req (zero Req);
       match err with
       | Some err => mret (Returns (Some err))
       | None =>
           spec ← HC_Spec conn;
           peer ← HC_Peer conn;
           header ← HC_RequestHeader conn;
           err ← implementation ctx (mkRequest msg spec peer header)
                   (mkServerStream Res conn);
           mret (Returns err)
       end)
    options.

(** [NewBidiStreamHandler]. *)
Definition NewBidiStreamHandler (Req Res : ty) (procedure : string)
    (implementation : Context -> BidiStream Req Res -> State IO (option error))
    (options : list HandlerOption) : Handler :=
  newStreamHandler procedure StreamTypeBidi
    (fun ctx conn =>
       err ← implementation ctx (mkBidiStream Req Res conn);
       mret (Returns err))
    options.

End Model.
End Handler.

(** ** Sample values

    Concrete types, connections and handlers on which the properties below
    are evaluated. *)

Module Samples.
Import Errors Header Connect.

Inductive SampleTy := PingRequest | PingResponse.

#[global] Instance SampleTy_eq_dec : EqDecision SampleTy.
Proof. solve_decision. Defined.

(** Two message types whose messages are texts. *)
#[global] Instance sampleTypes : MessageTypes := {|
  ty := SampleTy;
  El := fun _ => string;
  zero := fun _ => "";
  typeName := fun t => match t with
                       | PingRequest => "*connect.Request[PingRequest]"
                       | PingResponse => "*connect.Request[PingResponse]"
                       end;
|}.

(** A client connection that plays a script: each [Receive] takes the next
    entry and, on success, stores its text in the message; past the end of
    the script the stream is at its end. *)
Definition scriptedReceive (t : SampleTy) (target : string)
  : State (list (string + error)) (string * option error) :=
  fun script =>
    match script with
    | [] => ((target, Some (NewError CodeUnknown io_EOF)), [])
    | inl text :: rest => ((text, None), rest)
    | inr err :: rest => ((target, Some err), rest)
    end.

Definition scriptedConn : StreamingClientConn (list (string + error)) := {|
  CC_Spec := mret (mkSpec StreamTypeUnary "/acme.Foo/Bar" true);
  CC_Peer := mret (mkPeer "localhost:8080");
  CC_Send := fun _ => mret None;
  CC_RequestHeader := mret (Some 1%positive);
  CC_CloseRequest := mret None;
  CC_Receive := scriptedReceive;
  CC_ResponseHeader := mret (Some 2%positive);
  CC_ResponseTrailer := mret (Some 3%positive);
  CC_CloseResponse := mret None;
|}.

(** *** Handlers *)

Import Handler.

(** The state outside the handler is a log of what the collaborators did. *)
Definition Log := list string.
Abbreviation SIO := (@IO Log).
Abbreviation SWorld := (@World Log).

Abbreviation SProtocolHandler := (@protocolHandler sampleTypes Log).
Abbreviation SHandler := (@Handler sampleTypes Log).
Abbreviation SStreamingHandlerFunc := (@StreamingHandlerFunc sampleTypes Log).
Abbreviation SInterceptor := (@Interceptor sampleTypes Log).

Definition note (what : string) : State SIO unit :=
  modify (fun s => mkIO (heap s) (written s) (ext s ++ [what])).

(** Modelled from the spec: [canonicalizeContentType] lowercases the type
    and the subtype and keeps the parameters as they are. *)
Definition lowerAscii (c : ascii) : ascii :=
  let n := nat_of_ascii c in
  if ((65 <=? n) && (n <=? 90))%nat then ascii_of_nat (n + 32) else c.

Fixpoint canonicalizeContentType (contentType : string) : string :=
  match contentType with
  | EmptyString => EmptyString
  | String c rest =>
      if Ascii.eqb c ";"%char then contentType
      else String (lowerAscii c) (canonicalizeContentType rest)
  end.

(** Modelled from the spec: [mergeHeaders] adds the values of the second
    header to those of the first, key by key. *)
Definition mergeHeaders (into from : option loc) : State SIO unit :=
  match into, from with
  | Some into, Some from =>
      modify (fun s =>
        mkIO (<[into := union_with (fun a b => Some (a ++ b))
                          (contents (heap s) into) (contents (heap s) from)]> (heap s))
             (written s) (ext s))
  | _, _ => mret tt
  end.

(** The header maps of the sample request, response writer and stream. *)
Definition requestHeaderLoc : loc := 1%positive.
Definition writerHeaderLoc : loc := 2%positive.
Definition streamHeaderLoc : loc := 3%positive.
Definition streamTrailerLoc : loc := 4%positive.

Definition background : Context := mkContext "request" None.
Definition derived : Context := mkContext "request with timeout" None.
Definition cancelled : Context := mkContext "request" (Some context_Canceled).

Definition sampleStream : StreamingHandlerConn SIO := {|
  HC_Spec := mret (mkSpec StreamTypeUnary "/acme.Foo/Bar" false);
  HC_Peer := mret (mkPeer "10.0.0.1:4000");
  HC_Receive := fun _ target => note "Receive";; mret ("ping", None);
  HC_RequestHeader := mret (Some requestHeaderLoc);
  HC_Send := fun _ => note "Send";; mret None;
  HC_ResponseHeader := mret (Some streamHeaderLoc);
  HC_ResponseTrailer := mret (Some streamTrailerLoc);
|}.

Definition sampleConnCloser : handlerConnCloser SIO := {|
  HCC_conn := sampleStream;
  HCC_Close := fun err => note "Close";; mret None;
|}.

Definition timeoutParseError : error :=
  errorf CodeInvalidArgument "protocol error: invalid timeout".

(** Three protocol handlers.  The first finds a valid timeout, the second a
    malformed one; both return a cancel function. *)
Definition connectHandler : SProtocolHandler := {|
  ContentTypes := {[ "application/json"; "application/proto" ]};
  SetTimeout := fun _ => mret (derived, Some (note "cancel"), None);
  NewConn := fun _ _ => mret (Some sampleConnCloser);
|}.

Definition grpcHandler : SProtocolHandler := {|
  ContentTypes := {[ "application/grpc"; "application/grpc+proto" ]};
  SetTimeout := fun _ => mret (derived, Some (note "cancel"), Some timeoutParseError);
  NewConn := fun _ _ => mret (Some sampleConnCloser);
|}.

Definition grpcWebHandler : SProtocolHandler := {|
  ContentTypes := {[ "application/grpc-web" ]};
  SetTimeout := fun request => mret (Request_Context request, None, None);
  NewConn := fun _ _ => mret None;
|}.

Definition sampleHandlers : list SProtocolHandler :=
  [connectHandler; grpcHandler; grpcWebHandler].

Definition returning (err : option error) : SStreamingHandlerFunc :=
  fun _ _ => note "implementation";; mret (Returns err).

Definition panicking : SStreamingHandlerFunc :=
  fun _ _ => note "implementation";; mret (Panics "nil pointer dereference").

Definition sampleHandler (streamType : StreamType)
    (implementation : SStreamingHandlerFunc) : SHandler :=
  mkHandler (mkSpec streamType "/acme.Foo/Bar" false) implementation sampleHandlers
            (sortedAcceptPostValue sampleHandlers).

Definition sampleWriter : ResponseWriter := mkResponseWriter writerHeaderLoc.

Definition sampleRequest (method : string) (protoMajor : Z) : HTTPRequest :=
  mkHTTPRequest method protoMajor requestHeaderLoc background.

(** The world in which a request with the given [Content-Type] arrives. *)
Definition arriving (contentType : string) : SWorld :=
  mkWorld (mkIO {[ requestHeaderLoc := {[ "Content-Type" := [contentType] ]};
                   writerHeaderLoc := ∅ ]} None [])
          [].

(** *** Unary handlers *)

(** The user's function: answers [pong]. *)
Definition pingUnary (ctx : Context) (request : Request string)
  : State SIO (Response string + error) :=
  note "unary";; mret (inl (NewResponse "pong")).

(** An interceptor that answers from a cache and does not call on. *)
Definition cachingInterceptor : SInterceptor := {|
  WrapUnary := fun next ctx request =>
    note "interceptor";;
    mret (inl (existT PingResponse (NewResponse "cached pong") : AnyResponse));
  WrapStreamingHandler := fun next => next;
|}.

(** An interceptor that takes note of the call and calls on. *)
Definition loggingInterceptor : SInterceptor := {|
  WrapUnary := fun next ctx request => note "interceptor";; next ctx request;
  WrapStreamingHandler := fun next => next;
|}.

(** An interceptor that replaces the request by one of another type. *)
Definition swappingInterceptor : SInterceptor := {|
  WrapUnary := fun next ctx request =>
    next ctx (existT PingResponse (NewRequest "swapped") : AnyRequest);
  WrapStreamingHandler := fun next => next;
|}.

Abbreviation SConfig := (@handlerConfig sampleTypes Log unit unit).

(** [WithInterceptors] for one interceptor. *)
Definition WithInterceptor (ic : SInterceptor) : SConfig -> SConfig :=
  fun c =>
    mkHandlerConfig (CompressionPools c) (CompressionNames c) (Codecs c)
      (CompressMinBytes c) (Some ic) (Procedure c) (HandleGRPC c) (HandleGRPCWeb c)
      (Config_BufferPool c) (ReadMaxBytes c) (SendMaxBytes c).

Definition sampleProtocol (ph : SProtocolHandler)
  : @protocol sampleTypes Log unit unit :=
  {| NewHandler := fun _ => ph |}.

(** [NewUnaryHandler] with the sample protocols and no codecs. *)
Definition samplePingHandler (options : list (SConfig -> SConfig)) : SHandler :=
  NewUnaryHandler mergeHeaders (fun c => c) (fun c => c) (fun c => c)
    (sampleProtocol connectHandler)
    (fun web => sampleProtocol (if web then grpcWebHandler else grpcHandler))
    (fun _ => tt) (fun _ _ => tt)
    PingRequest PingResponse "/acme.Foo/Bar" pingUnary options.

Definition inStream : SIO :=
  mkIO {[ requestHeaderLoc := ∅; streamHeaderLoc := ∅; streamTrailerLoc := ∅ ]} None [].

(** *** Sample runs *)

Definition noSuchUser : error := NewError CodeUnknown (errors_New "no such user").

(** [ServeHTTP] on the sample writer for a request that arrives with the
    given [Content-Type]. *)
Definition serve (h : SHandler) (request : HTTPRequest) (contentType : string)
  : Outcome * SWorld :=
  ServeHTTP canonicalizeContentType h sampleWriter request (arriving contentType).

(** The state in which the sample protocol handlers are called. *)
Definition selected (request : HTTPRequest) (arrived canonical : string) : SIO :=
  withContentType request canonical (io (arriving arrived)).

(** *** More sample streams and user functions *)

Definition brokenBody : error := NewError CodeInvalidArgument (errors_New "invalid message").

(** A stream whose request message cannot be unmarshalled. *)
Definition brokenStream : StreamingHandlerConn SIO := {|
  HC_Spec := mret (mkSpec StreamTypeUnary "/acme.Foo/Bar" false);
  HC_Peer := mret (mkPeer "10.0.0.1:4000");
  HC_Receive := fun _ target => note "Receive";; mret (target, Some brokenBody);
  HC_RequestHeader := mret (Some requestHeaderLoc);
  HC_Send := fun _ => note "Send";; mret None;
  HC_ResponseHeader := mret (Some streamHeaderLoc);
  HC_ResponseTrailer := mret (Some streamTrailerLoc);
|}.

(** User functions that fail. *)
Definition failingUnary (ctx : Context) (request : Request string)
  : State SIO (Response string + error) :=
  note ("unary " +:+ Request_Msg request);; mret (inr noSuchUser).

Definition failingClient (ctx : Context)
    (stream : @ClientStream sampleTypes Log PingRequest)
  : State SIO (Response string + error) :=
  note "client stream";; mret (inr noSuchUser).

Definition quietServer (ctx : Context) (request : Request string)
    (stream : @ServerStream sampleTypes Log PingResponse) : State SIO (option error) :=
  note "server stream";; mret None.

(** The constructors with the sample protocols and no codecs. *)
Definition sampleUnaryHandler
    (unary : Context -> Request string -> State SIO (Response string + error))
    (options : list (SConfig -> SConfig)) : SHandler :=
  NewUnaryHandler mergeHeaders (fun c => c) (fun c => c) (fun c => c)
    (sampleProtocol connectHandler)
    (fun web => sampleProtocol (if web then grpcWebHandler else grpcHandler))
    (fun _ => tt) (fun _ _ => tt)
    PingRequest PingResponse "https://example.com/acme.Foo/Bar" unary options.

Definition sampleClientStreamHandler (options : list (SConfig -> SConfig)) : SHandler :=
  NewClientStreamHandler mergeHeaders (fun c => c) (fun c => c) (fun c => c)
    (sampleProtocol connectHandler)
    (fun web => sampleProtocol (if web then grpcWebHandler else grpcHandler))
    (fun _ => tt) (fun _ _ => tt)
    PingRequest PingResponse "/acme.Foo/Sum" failingClient options.

Definition sampleServerStreamHandler (options : list (SConfig -> SConfig)) : SHandler :=
  NewServerStreamHandler (fun c => c) (fun c => c) (fun c => c)
    (sampleProtocol connectHandler)
    (fun web => sampleProtocol (if web then grpcWebHandler else grpcHandler))
    (fun _ => tt) (fun _ _ => tt)
    PingRequest PingResponse "/acme.Foo/Count" quietServer options.

End Samples.

(* ================================================================== *)
(** * Properties *)
(* ================================================================== *)

Section ProtoPathFacts.
Import ProtoPath.

Lemma Split_cons (s : string) : exists hd tl, Split s = hd :: tl.
Proof.
  induction s as [|c rest IH]; simpl; [by eexists _, _|].
  destruct (Ascii.eqb c slash); [by eexists _, _|].
  destruct IH as (hd & tl & ->). by eexists _, _.
Qed.

Lemma Split_no_slash (s : string) : has_slash s = false -> Split s = [s].
Proof.
  induction s as [|c rest IH]; simpl; [done|].
  intros [Hc Hrest]%orb_false_iff. rewrite Hc, (IH Hrest). done.
Qed.

Lemma Split_has_slash (s : string) :
  has_slash s = true -> (2 <= length (Split s))%nat.
Proof.
  induction s as [|c rest IH]; simpl; [done|].
  destruct (Ascii.eqb c slash); simpl.
  - intros _. destruct (Split_cons rest) as (hd & tl & ->). simpl. lia.
  - intros H. specialize (IH H).
    destruct (Split rest) as [|hd tl]; simpl in *; lia.
Qed.

Lemma Split_segments_no_slash (s : string) :
  Forall (fun seg => has_slash seg = false) (Split s).
Proof.
  induction s as [|c rest IH]; simpl; [by constructor|].
  destruct (Ascii.eqb c slash) eqn:Hc; [by constructor|].
  destruct (Split rest) as [|hd tl]; simpl.
  - constructor; [|done]. simpl. by rewrite Hc.
  - inversion IH; subst. constructor; [|done]. simpl. by rewrite Hc.
Qed.

Lemma Split_append_slash (a t : string) :
  has_slash a = false -> Split (a +:+ String slash t) = a :: Split t.
Proof.
  induction a as [|c rest IH]; simpl; [done|].
  intros [Hc Hrest]%orb_false_iff. rewrite Hc, (IH Hrest). done.
Qed.

Lemma extractProtoPath_last_two (s : string) pre pkg method :
  Split s = pre ++ [pkg; method] ->
  extractProtoPath s = "/" +:+ pkg +:+ "/" +:+ method.
Proof.
  intros Hs. unfold extractProtoPath, at_index. rewrite Hs.
  rewrite length_app. simpl length.
  replace (1 <? length pre + 2)%nat with true by (symmetry; apply Nat.ltb_lt; lia).
  replace (length pre + 2 - 2)%nat with (length pre + 0)%nat by lia.
  replace (length pre + 2 - 1)%nat with (length pre + 1)%nat by lia.
  by rewrite !app_nth2_plus.
Qed.

Lemma Split_last_two (s : string) :
  has_slash s = true -> exists pre pkg method, Split s = pre ++ [pkg; method].
Proof.
  intros H%Split_has_slash.
  destruct (Split s) as [|x l] using rev_ind; [simpl in H; lia|].
  destruct l as [|y l' _] using rev_ind; [simpl in H; lia|].
  exists l', y, x. by rewrite <- app_assoc.
Qed.

Lemma extractProtoPath_no_slash (s : string) :
  has_slash s = false -> extractProtoPath s = "/" +:+ s.
Proof.
  intros H. unfold extractProtoPath. by rewrite (Split_no_slash s H).
Qed.

Lemma Split_normal_form (pkg method : string) :
  has_slash pkg = false -> has_slash method = false ->
  Split ("/" +:+ pkg +:+ "/" +:+ method) = [""; pkg; method].
Proof.
  intros Hp Hm. change ("/" +:+ pkg +:+ "/" +:+ method)
    with (String slash (pkg +:+ String slash method)).
  cbn [Split]. rewrite Ascii.eqb_refl.
  by rewrite (Split_append_slash _ _ Hp), (Split_no_slash _ Hm).
Qed.

(** C5, as the code has it: normalising twice is the same as normalising
    once for every input that contains a slash, and the four sample paths
    normalise as listed. *)
Theorem extractProtoPath_idempotent_on_slashed :
  (forall s : string, has_slash s = true ->
     extractProtoPath (extractProtoPath s) = extractProtoPath s) /\
  extractProtoPath "/foo.Bar/Baz" = "/foo.Bar/Baz" /\
  extractProtoPath "http://host/foo.Bar/Baz" = "/foo.Bar/Baz" /\
  extractProtoPath "Baz" = "/Baz" /\
  extractProtoPath "" = "/".
Proof.
  split; [|by repeat split].
  intros s Hs.
  destruct (Split_last_two s Hs) as (pre & pkg & method & Hsplit).
  pose proof (Split_segments_no_slash s) as Hall.
  rewrite Hsplit in Hall. apply Forall_app in Hall as [_ Hall].
  inversion Hall as [|? ? Hpkg Hall']; subst.
  inversion Hall' as [|? ? Hmethod _]; subst.
  rewrite (extractProtoPath_last_two s pre pkg method Hsplit).
  apply (extractProtoPath_last_two _ [""]).
  by apply Split_normal_form.
Qed.

Lemma extractProtoPath_idempotent_on_slashed_witness :
  has_slash "http://host/foo.Bar/Baz" = true /\
  extractProtoPath (extractProtoPath "http://host/foo.Bar/Baz")
  = extractProtoPath "http://host/foo.Bar/Baz".
Proof.
  split; [reflexivity|].
  apply (proj1 extractProtoPath_idempotent_on_slashed). reflexivity.
Defined.

(** C5 as stated fails: a path without a slash gains a second leading
    slash when it is normalised again. *)
Lemma extractProtoPath_not_idempotent :
  extractProtoPath "Baz" = "/Baz" /\
  extractProtoPath (extractProtoPath "Baz") = "//Baz" /\
  extractProtoPath (extractProtoPath "Baz") <> extractProtoPath "Baz".
Proof. repeat split. vm_compute. discriminate. Qed.

Lemma filter_nonempty_last_two pre (pkg method : string) :
  pkg <> "" -> method <> "" ->
  exists rest,
    rev (List.filter nonempty (pre ++ [pkg; method])) = method :: pkg :: rest.
Proof.
  intros Hp Hm. exists (rev (List.filter nonempty pre)).
  rewrite List.filter_app, rev_app_distr. simpl.
  unfold nonempty.
  destruct (String.eqb_spec pkg ""); [done|].
  destruct (String.eqb_spec method ""); [done|]. done.
Qed.

(** C6, as the code has it: the result is a slash followed by the last two
    segments of the split at slashes, empty segments included; a path
    without a slash is returned behind one slash and the empty path gives
    a single slash.  When the last two segments are not empty this is the
    normal form the specification describes. *)
Theorem extractProtoPath_trailing_segments :
  (forall (s : string) pre pkg method, Split s = pre ++ [pkg; method] ->
     extractProtoPath s = "/" +:+ pkg +:+ "/" +:+ method) /\
  (forall s : string, has_slash s = false ->
     Split s = [s] /\ extractProtoPath s = "/" +:+ s /\
     extractProtoPath s = spec_extractProtoPath s) /\
  extractProtoPath "" = "/" /\
  (forall (s : string) pre pkg method, Split s = pre ++ [pkg; method] ->
     pkg <> "" -> method <> "" ->
     extractProtoPath s = spec_extractProtoPath s).
Proof.
  split; [exact extractProtoPath_last_two|].
  split.
  { intros s Hs. split; [by apply Split_no_slash|].
    split; [by apply extractProtoPath_no_slash|].
    rewrite (extractProtoPath_no_slash s Hs).
    unfold spec_extractProtoPath. rewrite (Split_no_slash s Hs).
    simpl. unfold nonempty. by destruct (String.eqb_spec s ""); subst. }
  split; [reflexivity|].
  intros s pre pkg method Hs Hp Hm.
  rewrite (extractProtoPath_last_two s pre pkg method Hs).
  unfold spec_extractProtoPath. rewrite Hs.
  by destruct (filter_nonempty_last_two pre pkg method Hp Hm) as (rest & ->).
Qed.

Lemma extractProtoPath_trailing_segments_witness :
  Split "http://host/foo.Bar/Baz" = ["http:"; ""; "host"] ++ ["foo.Bar"; "Baz"] /\
  extractProtoPath "http://host/foo.Bar/Baz" = "/foo.Bar/Baz" /\
  extractProtoPath "http://host/foo.Bar/Baz"
  = spec_extractProtoPath "http://host/foo.Bar/Baz" /\
  extractProtoPath "Baz" = "/Baz".
Proof.
  destruct extractProtoPath_trailing_segments as (Hlast & Hnone & _ & Hspec).
  split; [reflexivity|]. split.
  { exact (Hlast "http://host/foo.Bar/Baz" ["http:"; ""; "host"]
             "foo.Bar" "Baz" eq_refl). }
  split.
  { apply (Hspec "http://host/foo.Bar/Baz" ["http:"; ""; "host"]
             "foo.Bar" "Baz");
      [reflexivity|discriminate|discriminate]. }
  exact (proj1 (proj2 (Hnone "Baz" eq_refl))).
Defined.

(** C6 as stated fails: an empty segment among the last two is kept, so the
    result is not made of the trailing two non-empty segments. *)
Lemma extractProtoPath_keeps_empty_segments :
  Split "a//b" = ["a"; ""; "b"] /\
  extractProtoPath "a//b" = "//b" /\
  spec_extractProtoPath "a//b" = "/a/b" /\
  extractProtoPath "a//b" <> spec_extractProtoPath "a//b".
Proof. repeat split. vm_compute. discriminate. Qed.

End ProtoPathFacts.

(** ** Envelopes *)

Section EnvelopeFacts.
Import Errors Header Connect.

Lemma make_fresh (h : Heap) : h !! (make h).1 = None.
Proof.
  unfold make. simpl. apply not_elem_of_dom. apply is_fresh.
Qed.

Lemma contents_set_at (h : Heap) l key value :
  Get (contents (set_at l key value h) l) key = value.
Proof.
  unfold set_at, contents, Get, Set_.
  rewrite lookup_insert_eq. simpl. by rewrite lookup_insert_eq.
Qed.

(** C10: the header and trailer accessors never return nil.  On a nil
    field the first call puts a new empty map into the envelope; on a map
    that is there it returns that map and changes nothing.  Every later
    call returns the same map, also after a write through it, and the
    write is seen behind it.  [NewRequest] and [NewResponse] leave the
    fields nil. *)
Theorem Header_accessors_lazy :
  (forall T (r : Request T) (h : Heap),
     let '((res, r'), h') := Request_Header r h in
     lazy_accessor Request_header Request_Header r h res r' h') /\
  (forall T (r : Response T) (h : Heap),
     let '((res, r'), h') := Response_Header r h in
     lazy_accessor Response_header Response_Header r h res r' h' /\
     Response_trailer r' = Response_trailer r) /\
  (forall T (r : Response T) (h : Heap),
     let '((res, r'), h') := Response_Trailer r h in
     lazy_accessor Response_trailer Response_Trailer r h res r' h' /\
     Response_header r' = Response_header r) /\
  (forall T (m : T), Request_header (NewRequest m) = None) /\
  (forall T (m : T), Response_header (NewResponse m) = None /\
                     Response_trailer (NewResponse m) = None).
Proof.
  split; [|split; [|split; [|split]]]; try done.
  - intros T [msg sp pr [l0|]] h; cbn.
    + exists l0. repeat split; auto using contents_set_at.
    + exists (fresh (dom h)). repeat split; auto using contents_set_at.
      * apply (make_fresh h).
      * unfold contents. by rewrite lookup_insert_eq.
  - intros T [msg [l0|] tr] h; cbn.
    + split; [|done]. exists l0. repeat split; auto using contents_set_at.
    + split; [|done]. exists (fresh (dom h)).
      repeat split; auto using contents_set_at.
      * apply (make_fresh h).
      * unfold contents. by rewrite lookup_insert_eq.
  - intros T [msg hd [l0|]] h; cbn.
    + split; [|done]. exists l0. repeat split; auto using contents_set_at.
    + split; [|done]. exists (fresh (dom h)).
      repeat split; auto using contents_set_at.
      * apply (make_fresh h).
      * unfold contents. by rewrite lookup_insert_eq.
Qed.

End EnvelopeFacts.

(** ** The client's unary helper *)

Section ClientFacts.
Import Errors Header Connect.
Context `{MessageTypes} {W : Type}.

(** C7: after a first [Receive] that succeeded, the second one decides the
    result.  When it succeeds too, the result is an error of code
    [Unknown] saying that the unary stream has multiple messages; when it
    fails with an error that wraps [io.EOF], the result is the first
    message with the header and the trailer the connection answers with
    afterwards; any other error is returned inside an error of code
    [Unknown]. *)
Theorem receiveUnaryResponse_second_Receive
    (T : ty) (conn : StreamingClientConn W) (w w1 w2 : W)
    (msg msg2 : El T) (err2 : option error) :
  CC_Receive conn T (zero T) w = ((msg, None), w1) ->
  CC_Receive conn T (zero T) w1 = ((msg2, err2), w2) ->
  match err2 with
  | None =>
      exists err,
        receiveUnaryResponse T conn w = (inr err, w2) /\
        err = NewError CodeUnknown (errors_New "unary stream has multiple messages") /\
        CodeOf err = CodeUnknown /\
        Message err = "unary stream has multiple messages"
  | Some e =>
      if errors_Is e io_EOF then
        let '(header, w3) := CC_ResponseHeader conn w2 in
        let '(trailer, w4) := CC_ResponseTrailer conn w3 in
        receiveUnaryResponse T conn w = (inl (mkResponse msg header trailer), w4)
      else
        receiveUnaryResponse T conn w = (inr (NewError CodeUnknown e), w2) /\
        CodeOf (NewError CodeUnknown e) = CodeUnknown /\
        Unwrap (NewError CodeUnknown e) = Some e
  end.
Proof.
  intros H1 H2. unfold receiveUnaryResponse, mbind, State_bind.
  rewrite H1, H2. destruct err2 as [e|].
  - destruct (errors_Is e io_EOF); simpl.
    + destruct (CC_ResponseHeader conn w2) as [header w3].
      by destruct (CC_ResponseTrailer conn w3) as [trailer w4].
    + done.
  - eexists. split; [reflexivity|]. done.
Qed.

(** A first [Receive] that fails is returned as it is. *)
Lemma receiveUnaryResponse_first_error
    (T : ty) (conn : StreamingClientConn W) (w w1 : W) (msg : El T) (e : error) :
  CC_Receive conn T (zero T) w = ((msg, Some e), w1) ->
  receiveUnaryResponse T conn w = (inr e, w1).
Proof.
  intros H1. unfold receiveUnaryResponse, mbind, State_bind. by rewrite H1.
Qed.

End ClientFacts.

Section ClientSamples.
Import Errors Header Connect Samples.

Lemma receiveUnaryResponse_second_Receive_witness :
  receiveUnaryResponse PingResponse scriptedConn [inl "pong"]
  = (inl (mkResponse "pong" (Some 2%positive) (Some 3%positive)), []).
Proof.
  exact (receiveUnaryResponse_second_Receive PingResponse scriptedConn
           [inl "pong"] [] [] "pong" "" (Some (NewError CodeUnknown io_EOF))
           eq_refl eq_refl).
Defined.

Example receiveUnaryResponse_two_messages :
  receiveUnaryResponse PingResponse scriptedConn [inl "pong"; inl "pong again"]
  = (inr (Error CodeUnknown (errors_New "unary stream has multiple messages")), []).
Proof. reflexivity. Qed.

Example receiveUnaryResponse_other_error :
  receiveUnaryResponse PingResponse scriptedConn
    [inl "pong"; inr (errors_New "connection reset")]
  = (inr (Error CodeUnknown (errors_New "connection reset")), []).
Proof. reflexivity. Qed.

End ClientSamples.

(** ** The buffer pool *)

Section BufferPoolFacts.
Import BufferPool.

Lemma elem_of_delete_index {A} (l : list A) (i : nat) (x : A) :
  x ∈ delete i l -> x ∈ l.
Proof.
  revert i. induction l as [|y l IH]; intros [|i]; simpl; try done.
  - intros Hx. by apply elem_of_cons; right.
  - intros [->|Hx]%elem_of_cons; apply elem_of_cons; [by left|right; eauto].
Qed.

Lemma Get_cases (pick : option nat) (st : PoolState) :
  (exists i, pool st !! i = Some (Get pick st).1 /\
             (Get pick st).2 = mkPoolState (buffers st) (delete i (pool st))) \/
  ((Get pick st).1 = fresh (dom (buffers st)) /\
   (Get pick st).2 = mkPoolState (<[fresh (dom (buffers st)) := New]> (buffers st))
                                 (pool st)).
Proof.
  unfold Get. destruct pick as [i|]; simpl; [|by right].
  destruct (pool st !! i) as [p|] eqn:Hp; simpl; [|by right].
  left. by exists i.
Qed.

Lemma fresh_not_stored (m : gmap ptr Buffer) : m !! fresh (dom m) = None.
Proof. apply not_elem_of_dom, is_fresh. Qed.

Lemma pooled_ok_insert_outside lo st p b :
  pooled_ok lo st -> p ∉ pool st ->
  pooled_ok lo (mkPoolState (<[p := b]> (buffers st)) (pool st)).
Proof.
  intros Hok Hp q Hq. simpl in *.
  destruct (Hok q Hq) as (bq & Hbq & Hrest).
  exists bq. split; [|done].
  rewrite lookup_insert_ne; [done|]. by intros ->.
Qed.

Lemma pooled_ok_fresh lo st b :
  pooled_ok lo st ->
  pooled_ok lo (mkPoolState (<[fresh (dom (buffers st)) := b]> (buffers st)) (pool st)).
Proof.
  intros Hok. apply pooled_ok_insert_outside; [done|].
  intros Hin. destruct (Hok _ Hin) as (bq & Hbq & _).
  by rewrite fresh_not_stored in Hbq.
Qed.

Lemma pooled_ok_delete lo st i :
  pooled_ok lo st -> pooled_ok lo (mkPoolState (buffers st) (delete i (pool st))).
Proof.
  intros Hok q Hq. simpl in *. apply Hok. by apply elem_of_delete_index in Hq.
Qed.

Lemma reachable_pooled_ok lo st : reachable lo st -> pooled_ok lo st.
Proof.
  induction 1 as [|st b _ IH|st p b b' _ IH Hp Hb Hcap|st pick _ IH
                  |st p b _ IH Hp Hb Hcap|st i _ IH].
  - intros p Hp. simpl in Hp. by apply elem_of_nil in Hp.
  - by apply pooled_ok_fresh.
  - by apply pooled_ok_insert_outside.
  - destruct (Get_cases pick st) as [(i & _ & ->)|[_ ->]].
    + by apply pooled_ok_delete.
    + by apply pooled_ok_fresh.
  - unfold Put. rewrite Hb.
    destruct (maxRecycleBufferSize <? Cap b)%Z; simpl; [done|].
    intros q [->|Hq]%elem_of_cons; simpl.
    + exists (Reset b). rewrite lookup_insert_eq. simpl. repeat split. lia.
    + destruct (IH q Hq) as (bq & Hbq & Hrest). exists bq. split; [|done].
      rewrite lookup_insert_ne; [done|]. by intros ->.
  - by apply pooled_ok_delete.
Qed.

Lemma Get_of_pooled_ok lo st pick :
  pooled_ok lo st ->
  exists b, buffers (Get pick st).2 !! (Get pick st).1 = Some b /\
            Bytes b = [] /\ (Z.min lo initialBufferSize <= Cap b)%Z.
Proof.
  intros Hok. destruct (Get_cases pick st) as [(i & Hi & ->)|[-> ->]]; simpl.
  - apply Hok. by eapply list_elem_of_lookup_2.
  - exists New. rewrite lookup_insert_eq. simpl. repeat split. lia.
Qed.

(** C9, as the code has it.  [Put] of a buffer of more than 8 MiB capacity
    leaves the pool as it is, so a following [Get] does not hand out a
    buffer the caller held alone; [Put] of a buffer of at most 8 MiB
    empties it and adds it to the pool.  When callers leave a buffer alone
    once they have put it back, every [Get] gives an empty buffer, whose
    capacity is at least the smaller of 512 and the least capacity a caller
    has put back: at least 512 when no smaller buffer is ever put. *)
Theorem bufferPool_recycling :
  initialBufferSize = 512%Z /\ maxRecycleBufferSize = (8 * 1024 * 1024)%Z /\
  (forall st p b,
     buffers st !! p = Some b -> (maxRecycleBufferSize < Cap b)%Z ->
     (Put p st).2 = st /\
     (p ∉ pool st -> forall pick, (Get pick (Put p st).2).1 <> p)) /\
  (forall st p b,
     buffers st !! p = Some b -> (Cap b <= maxRecycleBufferSize)%Z ->
     (Put p st).2
     = mkPoolState (<[p := mkBuffer [] (Cap b)]> (buffers st)) (p :: pool st)) /\
  (forall lo st pick,
     reachable lo st ->
     exists b, buffers (Get pick st).2 !! (Get pick st).1 = Some b /\
               Bytes b = [] /\
               (Z.min lo initialBufferSize <= Cap b)%Z /\
               (initialBufferSize <= lo -> initialBufferSize <= Cap b)%Z).
Proof.
  split; [done|]. split; [done|]. split; [|split].
  - intros st p b Hb Hcap.
    assert (Hput : (Put p st).2 = st).
    { unfold Put. rewrite Hb.
      by replace (maxRecycleBufferSize <? Cap b)%Z with true
        by (symmetry; apply Z.ltb_lt; lia). }
    split; [done|]. intros Hp pick. rewrite Hput.
    destruct (Get_cases pick st) as [(i & Hi & _)|[-> _]].
    + intros Heq. apply Hp. rewrite <- Heq. by eapply list_elem_of_lookup_2.
    + intros Heq. rewrite <- Heq, fresh_not_stored in Hb. done.
  - intros st p b Hb Hcap. unfold Put. rewrite Hb.
    by replace (maxRecycleBufferSize <? Cap b)%Z with false
      by (symmetry; apply Z.ltb_ge; lia).
  - intros lo st pick Hreach.
    destruct (Get_of_pooled_ok lo st pick (reachable_pooled_ok lo st Hreach))
      as (b & Hb & Hbytes & Hcap).
    exists b. repeat split; try done. lia.
Qed.

End BufferPoolFacts.

Section BufferPoolSamples.
Import BufferPool.

(** A buffer is taken from a new pool, put back and taken again. *)
Lemma bufferPool_recycling_witness :
  let st := (Put 1%positive (Get None newBufferPool).2).2 in
  reachable 512 st /\
  (Get (Some 0%nat) st).1 = 1%positive /\
  exists b, buffers (Get (Some 0%nat) st).2 !! (Get (Some 0%nat) st).1 = Some b /\
            Bytes b = [] /\ (512 <= Cap b)%Z.
Proof.
  intros st.
  assert (Hreach : reachable 512 st).
  { apply (reach_put 512 (Get None newBufferPool).2 1%positive New).
    - apply reach_get, reach_new.
    - apply not_elem_of_nil.
    - reflexivity.
    - unfold New, initialBufferSize. simpl. lia. }
  split; [exact Hreach|]. split; [reflexivity|].
  destruct bufferPool_recycling as (_ & _ & _ & _ & Hget).
  destruct (Hget 512%Z st (Some 0%nat) Hreach) as (b & Hb & Hbytes & _ & Hcap).
  exists b. split; [exact Hb|]. split; [exact Hbytes|].
  apply Hcap. unfold initialBufferSize. lia.
Defined.

(** C9 as stated fails in its last part: a caller may put back a buffer it
    made itself, and [Get] then hands out that buffer with its capacity
    below 512. *)
Lemma bufferPool_Get_small_buffer :
  let st := (Put 1%positive (alloc (mkBuffer [] 0) newBufferPool).2).2 in
  reachable 0 st /\
  (Get (Some 0%nat) st).1 = 1%positive /\
  buffers (Get (Some 0%nat) st).2 !! (Get (Some 0%nat) st).1 = Some (mkBuffer [] 0) /\
  ~ (forall b, buffers (Get (Some 0%nat) st).2 !! (Get (Some 0%nat) st).1 = Some b ->
               (initialBufferSize <= Cap b)%Z).
Proof.
  intros st. split; [|split; [reflexivity|split; [reflexivity|]]].
  - apply (reach_put 0 (alloc (mkBuffer [] 0) newBufferPool).2 1%positive
             (mkBuffer [] 0)).
    + apply reach_alloc, reach_new.
    + apply not_elem_of_nil.
    + reflexivity.
    + simpl. lia.
  - intros Hall. specialize (Hall (mkBuffer [] 0) eq_refl).
    unfold initialBufferSize in Hall. simpl in Hall. lia.
Qed.

End BufferPoolSamples.

(** ** The handler *)

Section HandlerFacts.
Import Errors Header Connect Handler.
Context `{MessageTypes} {U : Type}.
Context (canonicalizeContentType : string -> string).

Local Abbreviation IO := (@IO U).
Local Abbreviation World := (@World U).
Local Abbreviation protocolHandler := (@protocolHandler _ U).
Local Abbreviation Handler := (@Handler _ U).
Local Abbreviation CancelFunc := (@CancelFunc U).

(** The whole run of [serveStream], case by case. *)
Lemma serveStream_run (h : Handler) (ph : protocolHandler) (rw : ResponseWriter)
    (request : HTTPRequest) (ct : string) (w : World) :
  let s0 := withContentType request ct (io w) in
  let '((ctx, cancel, timeoutErr), s1) := SetTimeout ph request s0 in
  let ctx' := match timeoutErr with
              | Some _ => Request_Context request
              | None => ctx
              end in
  let seen := Get (contents (heap s1) (Request_Header_map request)) "Content-Type" in
  let '(connCloser, s2) := NewConn ph rw (WithContext request ctx') s1 in
  let pre := [EvSetTimeout request ct; EvNewConn (WithContext request ctx') seen] in
  serveStream h ph rw request ct w =
  match connCloser with
  | None =>
      (Done, mkWorld (runCancel cancel s2) (trace w ++ pre ++ cancelEvents cancel))
  | Some cc =>
      match timeoutErr with
      | Some e =>
          (Done, mkWorld (runCancel cancel (HCC_Close cc (Some e) s2).2)
                         (trace w ++ pre ++ [EvClose (Some e)] ++ cancelEvents cancel))
      | None =>
          match implementation h ctx (HCC_conn cc) s2 with
          | (Returns err, s3) =>
              (Done, mkWorld (runCancel cancel (HCC_Close cc err s3).2)
                             (trace w ++ pre ++ [EvImplementation ctx; EvClose err]
                                ++ cancelEvents cancel))
          | (Panics v, s3) =>
              (Panicking v, mkWorld (runCancel cancel s3)
                                    (trace w ++ pre ++ [EvImplementation ctx]
                                       ++ cancelEvents cancel))
          end
      end
  end.
Proof.
  cbv zeta. unfold serveStream, seenContentType, emit, Request_Header_Set,
    Request_Header_Get, withContentType, liftIO, modify, gets, mbind, State_bind,
    mret, State_ret.
  cbn [io trace heap fst snd].
  rewrite contents_set_at.
  destruct (SetTimeout ph request _) as [[[ctx cancel] timeoutErr] s1].
  cbn [io trace heap].
  destruct (NewConn ph rw _ s1) as [[cc|] s2]; cbn [io trace heap].
  - destruct timeoutErr as [e|]; cbn [io trace].
    + destruct (HCC_Close cc (Some e) s2) as [r s3] eqn:Hclose.
      destruct cancel as [cancel|]; cbn; [destruct (cancel s3)|];
        cbn; by rewrite <- ?app_assoc.
    + destruct (implementation h ctx (HCC_conn cc) s2) as [[err|v] s3].
      * cbn [io trace]. destruct (HCC_Close cc err s3) as [r s4] eqn:Hclose.
        destruct cancel as [cancel|]; cbn; [destruct (cancel s4)|];
          cbn; by rewrite <- ?app_assoc.
      * destruct cancel as [cancel|]; cbn; [destruct (cancel s3)|];
          cbn; by rewrite <- ?app_assoc.
  - destruct cancel as [cancel|]; cbn; [destruct (cancel s2)|];
      cbn; by rewrite <- ?app_assoc.
Qed.

(** A POST request that passes the version check is served by the protocol
    handler found for its content type. *)
Lemma ServeHTTP_selected (h : Handler) (ph : protocolHandler) (rw : ResponseWriter)
    (request : HTTPRequest) (w : World) :
  isBidi h && (ProtoMajor request <? 2)%Z = false ->
  Method request = MethodPost ->
  findProtocolHandler h (requestContentType canonicalizeContentType request (io w))
  = Some ph ->
  ServeHTTP canonicalizeContentType h rw request w
  = serveStream h ph rw request
      (requestContentType canonicalizeContentType request (io w)) w.
Proof.
  intros Hgate Hmethod Hfind. unfold ServeHTTP.
  rewrite Hgate, Hmethod. cbn [negb String.eqb].
  replace (MethodPost =? MethodPost)%string with true by done. cbn [negb].
  unfold liftIO, Request_Header_Get, gets, mbind, State_bind. cbn [fst snd].
  fold (requestContentType canonicalizeContentType request (io w)).
  rewrite Hfind. by destruct w.
Qed.

Lemma ServeHTTP_unsupported (h : Handler) (rw : ResponseWriter)
    (request : HTTPRequest) (w : World) :
  isBidi h && (ProtoMajor request <? 2)%Z = false ->
  Method request = MethodPost ->
  findProtocolHandler h (requestContentType canonicalizeContentType request (io w))
  = None ->
  ServeHTTP canonicalizeContentType h rw request w
  = (Done, mkWorld (respond rw "Accept-Post" (acceptPost h) 415 (io w)) (trace w)).
Proof.
  intros Hgate Hmethod Hfind. unfold ServeHTTP.
  rewrite Hgate, Hmethod. cbn [negb String.eqb].
  replace (MethodPost =? MethodPost)%string with true by done. cbn [negb].
  unfold liftIO, Request_Header_Get, gets, mbind, State_bind. cbn [fst snd].
  fold (requestContentType canonicalizeContentType request (io w)).
  rewrite Hfind.
  unfold respond, RW_Header_Set, WriteHeader, modify, mret, State_ret.
  by destruct w.
Qed.

(** C1, as the code has it.  When the protocol handler has built a stream,
    [Close] is called exactly once on the three paths on which the handler
    returns: with the timeout error when there is one, the implementation
    not being called, and otherwise with what the implementation returns,
    an error or nil.  When the implementation panics, [Close] is not
    called; the panic leaves [ServeHTTP] after the deferred cancel. *)
Theorem ServeHTTP_Close_once (h : Handler) (ph : protocolHandler) (rw : ResponseWriter)
    (request : HTTPRequest) (w : World)
    (ctx : Context) (cancel : option CancelFunc) (timeoutErr : option error)
    (cc : handlerConnCloser IO) (s1 s2 : IO) :
  let ct := requestContentType canonicalizeContentType request (io w) in
  let ctx' := match timeoutErr with
              | Some _ => Request_Context request
              | None => ctx
              end in
  isBidi h && (ProtoMajor request <? 2)%Z = false ->
  Method request = MethodPost ->
  findProtocolHandler h ct = Some ph ->
  SetTimeout ph request (withContentType request ct (io w))
  = ((ctx, cancel, timeoutErr), s1) ->
  NewConn ph rw (WithContext request ctx') s1 = (Some cc, s2) ->
  exists events,
    trace (ServeHTTP canonicalizeContentType h rw request w).2 = trace w ++ events /\
    match timeoutErr with
    | Some e =>
        (ServeHTTP canonicalizeContentType h rw request w).1 = Done /\
        closes events = [Some e] /\ implementationCalls events = 0%nat /\
        io (ServeHTTP canonicalizeContentType h rw request w).2
        = runCancel cancel (HCC_Close cc (Some e) s2).2
    | None =>
        match implementation h ctx (HCC_conn cc) s2 with
        | (Returns err, s3) =>
            (ServeHTTP canonicalizeContentType h rw request w).1 = Done /\
            closes events = [err] /\ implementationCalls events = 1%nat /\
            io (ServeHTTP canonicalizeContentType h rw request w).2
            = runCancel cancel (HCC_Close cc err s3).2
        | (Panics v, s3) =>
            (ServeHTTP canonicalizeContentType h rw request w).1 = Panicking v /\
            closes events = [] /\ implementationCalls events = 1%nat /\
            io (ServeHTTP canonicalizeContentType h rw request w).2
            = runCancel cancel s3
        end
    end.
Proof.
  intros ct ctx' Hgate Hmethod Hfind Htimeout Hconn.
  rewrite (ServeHTTP_selected h ph rw request w Hgate Hmethod Hfind).
  pose proof (serveStream_run h ph rw request ct w) as Hrun.
  cbv zeta in Hrun. rewrite Htimeout in Hrun. fold ctx' in Hrun.
  rewrite Hconn in Hrun. fold ct.
  destruct timeoutErr as [e|].
  - rewrite Hrun. eexists. split; [reflexivity|].
    by destruct cancel.
  - destruct (implementation h ctx (HCC_conn cc) s2) as [[err|v] s3];
      rewrite Hrun; (eexists; split; [reflexivity|]); by destruct cancel.
Qed.

(** C2: when [SetTimeout] returns an error, the stream is built on the
    request with its own context, not the derived one; when the stream is
    built, [Close] is called once, with that error, and the implementation
    is not called; the cancel function, when there is one, is called last,
    whether or not the stream was built. *)
Theorem ServeHTTP_timeout_error (h : Handler) (ph : protocolHandler) (rw : ResponseWriter)
    (request : HTTPRequest) (w : World)
    (ctx : Context) (cancel : option CancelFunc) (e : error) (s1 : IO) :
  let ct := requestContentType canonicalizeContentType request (io w) in
  let request' := WithContext request (Request_Context request) in
  isBidi h && (ProtoMajor request <? 2)%Z = false ->
  Method request = MethodPost ->
  findProtocolHandler h ct = Some ph ->
  SetTimeout ph request (withContentType request ct (io w))
  = ((ctx, cancel, Some e), s1) ->
  ServeHTTP canonicalizeContentType h rw request w
  = (Done,
     mkWorld
       (runCancel cancel
          match NewConn ph rw request' s1 with
          | (Some cc, s2) => (HCC_Close cc (Some e) s2).2
          | (None, s2) => s2
          end)
       (trace w
          ++ [EvSetTimeout request ct;
              EvNewConn request'
                (Get (contents (heap s1) (Request_Header_map request)) "Content-Type")]
          ++ match NewConn ph rw request' s1 with
             | (Some _, _) => [EvClose (Some e)]
             | (None, _) => []
             end
          ++ cancelEvents cancel)).
Proof.
  intros ct request' Hgate Hmethod Hfind Htimeout.
  rewrite (ServeHTTP_selected h ph rw request w Hgate Hmethod Hfind).
  pose proof (serveStream_run h ph rw request ct w) as Hrun.
  cbv zeta in Hrun. rewrite Htimeout in Hrun. fold request' in Hrun. fold ct.
  by destruct (NewConn ph rw request' s1) as [[cc|] s2]; rewrite Hrun.
Qed.

(** C3, as the code has it: a request whose method is not POST is answered
    with status 405 and [Allow: POST], and nothing else is done, unless
    the handler is bidirectional and the request is below HTTP/2: that
    request is answered with status 505 whatever its method. *)
Theorem ServeHTTP_method_not_allowed (h : Handler) (rw : ResponseWriter)
    (request : HTTPRequest) (w : World) :
  Method request <> MethodPost ->
  written (io w) = None ->
  (isBidi h && (ProtoMajor request <? 2)%Z = false ->
   exists header,
     ServeHTTP canonicalizeContentType h rw request w
     = (Done, mkWorld (respond rw "Allow" "POST" 405 (io w)) (trace w)) /\
     written (respond rw "Allow" "POST" 405 (io w)) = Some (405%Z, header) /\
     Get header "Allow" = "POST") /\
  (isBidi h && (ProtoMajor request <? 2)%Z = true ->
   ServeHTTP canonicalizeContentType h rw request w
   = (Done, mkWorld (mkIO (heap (io w))
                          (Some (505%Z, contents (heap (io w)) (RW_Header rw)))
                          (ext (io w)))
                    (trace w))).
Proof.
  intros Hmethod Hfresh. split; intros Hgate; unfold ServeHTTP; rewrite Hgate.
  - apply String.eqb_neq in Hmethod. rewrite Hmethod. cbn [negb].
    unfold respond, RW_Header_Set, WriteHeader, liftIO, modify, mbind, State_bind,
      mret, State_ret. cbn. rewrite Hfresh.
    eexists. split; [reflexivity|]. split; [reflexivity|].
    apply contents_set_at.
  - unfold WriteHeader, liftIO, modify, mbind, State_bind, mret, State_ret.
    cbn. by rewrite Hfresh.
Qed.

Lemma find_first {A} (f : A -> bool) (l : list A) (x : A) :
  List.find f l = Some x ->
  exists before after,
    l = before ++ x :: after /\ f x = true /\ Forall (fun y => f y = false) before.
Proof.
  induction l as [|y l IH]; simpl; [done|].
  destruct (f y) eqn:Hy.
  - intros [= ->]. exists [], l. by repeat split.
  - intros (before & after & -> & Hx & Hbefore)%IH.
    exists (y :: before), after. repeat split; [done|]. by constructor.
Qed.

Lemma findProtocolHandler_Some (h : Handler) (ct : string) (ph : protocolHandler) :
  findProtocolHandler h ct = Some ph ->
  exists before after,
    protocolHandlers h = before ++ ph :: after /\
    ct ∈ ContentTypes ph /\
    Forall (fun p => ct ∉ ContentTypes p) before.
Proof.
  intros (before & after & Hl & Hph & Hbefore)%find_first.
  exists before, after. split; [done|]. split.
  - by apply bool_decide_eq_true in Hph.
  - eapply Forall_impl; [exact Hbefore|].
    intros p Hp. by apply bool_decide_eq_false in Hp.
Qed.

Lemma findProtocolHandler_None (h : Handler) (ct : string) :
  findProtocolHandler h ct = None ->
  forall p, p ∈ protocolHandlers h -> ct ∉ ContentTypes p.
Proof.
  intros Hnone p Hp%list_elem_of_In.
  pose proof (List.find_none _ _ Hnone p Hp) as Hf.
  by apply bool_decide_eq_false in Hf.
Qed.

(** The byte-wise order of strings. *)
Lemma compare_agree (a b : string) : String.compare a b = String_as_OT.compare a b.
Proof.
  revert b. induction a as [|c a IH]; intros [|d b]; simpl; try done.
Qed.

Lemma string_le_cases (a b : string) :
  string_le a b <-> a = b \/ String_as_OT.lt a b.
Proof.
  unfold string_le, String.leb. rewrite compare_agree.
  destruct (String_as_OT.compare_spec a b) as [Heq|Hlt|Hgt].
  - split; auto.
  - split; auto.
  - split; [done|]. intros [->|Hlt].
    + by apply (irreflexivity String_as_OT.lt) in Hgt.
    + pose proof (transitivity (R:=String_as_OT.lt) Hlt Hgt) as Hbad.
      by apply (irreflexivity String_as_OT.lt) in Hbad.
Qed.

#[local] Instance string_le_trans : Transitive string_le.
Proof.
  intros a b c [->|Hab]%string_le_cases [->|Hbc]%string_le_cases;
    apply string_le_cases; auto.
  right. by transitivity b.
Qed.

#[local] Instance string_le_total : Total string_le.
Proof. intros a b. apply String.leb_total. Qed.

(** The list behind [sortedAcceptPostValue]: in order, without repetition,
    and made of the content types of the handlers. *)
Lemma sortedContentTypes_spec (handlers : list protocolHandler) :
  StronglySorted string_le (sortedContentTypes handlers) /\
  NoDup (sortedContentTypes handlers) /\
  (forall ct, ct ∈ sortedContentTypes handlers <->
              exists ph, ph ∈ handlers /\ ct ∈ ContentTypes ph).
Proof.
  unfold sortedContentTypes. split; [apply StronglySorted_merge_sort; apply _|].
  split.
  - rewrite merge_sort_Permutation. apply NoDup_elements.
  - intros ct. rewrite merge_sort_Permutation, elem_of_elements.
    unfold supportedContentTypes. rewrite elem_of_union_list. split.
    + intros (X & (ph & -> & Hph)%list_elem_of_fmap & Hct). by exists ph.
    + intros (ph & Hph & Hct). exists (ContentTypes ph). split; [|done].
      apply list_elem_of_fmap. by exists ph.
Qed.

End HandlerFacts.

(** ** Handler construction and protocol selection *)

Section ConstructorFacts.
Import Errors Header Connect Handler.
Context `{MessageTypes} {U : Type}.
Context (canonicalizeContentType : string -> string).
Context (mergeHeaders : option loc -> option loc -> State (@IO U) unit).
Context {Codec compressionPool readOnlyCodecs readOnlyCompressionPools : Type}.

Local Abbreviation IO := (@IO U).
Local Abbreviation World := (@World U).
Local Abbreviation protocolHandler := (@protocolHandler _ U).
Local Abbreviation Handler := (@Handler _ U).
Local Abbreviation HandlerOption := (@HandlerOption _ U Codec compressionPool).
Local Abbreviation protocol :=
  (@protocol _ U readOnlyCodecs readOnlyCompressionPools).

Context (withProtoBinaryCodec withProtoJSONCodecs withGzip : HandlerOption).
Context (protocolConnect : protocol) (protocolGRPC : bool -> protocol).
Context (newReadOnlyCodecs : gmap string Codec -> readOnlyCodecs).
Context (newReadOnlyCompressionPools :
           gmap string compressionPool -> list string -> readOnlyCompressionPools).

Local Abbreviation newUnaryHandler :=
  (NewUnaryHandler mergeHeaders withProtoBinaryCodec withProtoJSONCodecs withGzip
     protocolConnect protocolGRPC newReadOnlyCodecs newReadOnlyCompressionPools).
Local Abbreviation handlerConfigOf :=
  (newHandlerConfig withProtoBinaryCodec withProtoJSONCodecs withGzip).

(** C4: for a POST request that passes the version gate, the protocol
    handler that serves the request is the first one in the handler's list
    whose content types contain the canonical form of the request's
    [Content-Type]; the request carries the canonical form when that
    handler is first called, and the stream is built after that.  When no
    handler has the content type, the answer is status 415 with
    [Accept-Post] set to the value kept in the handler, which
    [NewUnaryHandler] computes as the sorted list of all content types of
    its protocol handlers. *)
Theorem ServeHTTP_protocol_selection (h : Handler) (rw : ResponseWriter)
    (request : HTTPRequest) (w : World) :
  let ct := requestContentType canonicalizeContentType request (io w) in
  isBidi h && (ProtoMajor request <? 2)%Z = false ->
  Method request = MethodPost ->
  match findProtocolHandler h ct with
  | Some ph =>
      (exists before after,
         protocolHandlers h = before ++ ph :: after /\
         ct ∈ ContentTypes ph /\
         Forall (fun p => ct ∉ ContentTypes p) before) /\
      ServeHTTP canonicalizeContentType h rw request w
      = serveStream h ph rw request ct w /\
      Get (contents (heap (withContentType request ct (io w)))
             (Request_Header_map request)) "Content-Type" = ct /\
      (exists ctx cancel timeoutErr s1 request' rest,
         SetTimeout ph request (withContentType request ct (io w))
         = ((ctx, cancel, timeoutErr), s1) /\
         trace (ServeHTTP canonicalizeContentType h rw request w).2
         = trace w ++ EvSetTimeout request ct
             :: EvNewConn request'
                  (Get (contents (heap s1) (Request_Header_map request)) "Content-Type")
             :: rest) /\
      (let s0 :=
         mkIO (<[Request_Header_map request :=
                   <["Content-Type" := [ct]]>
                     (contents (heap (io w)) (Request_Header_map request))]>
                 (heap (io w)))
              (written (io w)) (ext (io w)) in
       let '((ctx, cancel, timeoutErr), s1) := SetTimeout ph request s0 in
       let ctx' := match timeoutErr with
                   | Some _ => Request_Context request
                   | None => ctx
                   end in
       let seen := Get (contents (heap s1) (Request_Header_map request)) "Content-Type" in
       let '(connCloser, s2) := NewConn ph rw (WithContext request ctx') s1 in
       let pre := [EvSetTimeout request ct; EvNewConn (WithContext request ctx') seen] in
       ServeHTTP canonicalizeContentType h rw request w =
       match connCloser with
       | None =>
           (Done, mkWorld (runCancel cancel s2) (trace w ++ pre ++ cancelEvents cancel))
       | Some cc =>
           match timeoutErr with
           | Some e =>
               (Done, mkWorld (runCancel cancel (HCC_Close cc (Some e) s2).2)
                              (trace w ++ pre ++ [EvClose (Some e)]
                                 ++ cancelEvents cancel))
           | None =>
               match implementation h ctx (HCC_conn cc) s2 with
               | (Returns err, s3) =>
                   (Done, mkWorld (runCancel cancel (HCC_Close cc err s3).2)
                                  (trace w ++ pre ++ [EvImplementation ctx; EvClose err]
                                     ++ cancelEvents cancel))
               | (Panics v, s3) =>
                   (Panicking v, mkWorld (runCancel cancel s3)
                                         (trace w ++ pre ++ [EvImplementation ctx]
                                            ++ cancelEvents cancel))
               end
           end
       end)
  | None =>
      (forall p, p ∈ protocolHandlers h -> ct ∉ ContentTypes p) /\
      ServeHTTP canonicalizeContentType h rw request w
      = (Done, mkWorld (respond rw "Accept-Post" (acceptPost h) 415 (io w)) (trace w)) /\
      (written (io w) = None ->
       exists header,
         written (respond rw "Accept-Post" (acceptPost h) 415 (io w))
         = Some (415%Z, header) /\
         Get header "Accept-Post" = acceptPost h)
  end /\
  (forall Req Res procedure unary options,
     let handlers := protocolHandlers (newUnaryHandler Req Res procedure unary options) in
     acceptPost (newUnaryHandler Req Res procedure unary options)
     = String.concat ", " (sortedContentTypes handlers) /\
     StronglySorted string_le (sortedContentTypes handlers) /\
     NoDup (sortedContentTypes handlers) /\
     (forall c, c ∈ sortedContentTypes handlers <->
                exists ph, ph ∈ handlers /\ c ∈ ContentTypes ph)).
Proof.
  intros ct Hgate Hmethod. split.
  - destruct (findProtocolHandler h ct) as [ph|] eqn:Hfind.
    + split; [by apply findProtocolHandler_Some|].
      pose proof (ServeHTTP_selected canonicalizeContentType h ph rw request w
                    Hgate Hmethod Hfind) as Hsel.
      split; [exact Hsel|]. split; [apply contents_set_at|].
      rewrite Hsel. fold ct.
      pose proof (serveStream_run h ph rw request ct w) as Hrun.
      split; [|exact Hrun].
      cbv zeta in Hrun.
      destruct (SetTimeout ph request _) as [[[ctx cancel] timeoutErr] s1].
      exists ctx, cancel, timeoutErr, s1.
      destruct (NewConn ph rw _ s1) as [[cc|] s2].
      * destruct timeoutErr as [e|].
        -- rewrite Hrun. by eexists _, _.
        -- destruct (implementation h ctx (HCC_conn cc) s2) as [[err|v] s3];
             rewrite Hrun; by eexists _, _.
      * rewrite Hrun. by eexists _, _.
    + split; [by apply findProtocolHandler_None|]. split.
      * by apply ServeHTTP_unsupported.
      * intros Hfresh. unfold respond, RW_Header_Set, WriteHeader, modify.
        cbn. rewrite Hfresh. eexists. split; [reflexivity|].
        apply contents_set_at.
  - intros Req Res procedure unary options handlers. split; [reflexivity|].
    apply sortedContentTypes_spec.
Qed.

Lemma assertRequest_same (Req : ty) (r : Request (El Req)) :
  assertRequest Req (existT Req r) = Some r.
Proof.
  unfold assertRequest. destruct (decide (Req = Req)) as [e|]; [|done].
  by rewrite (proof_irrel e eq_refl).
Qed.

Lemma assertRequest_other (Req : ty) (request : AnyRequest) :
  projT1 request <> Req -> assertRequest Req request = None.
Proof.
  destruct request as [t r]. simpl. intros Hne. unfold assertRequest.
  by destruct (decide (t = Req)).
Qed.

(** What the implementation of a unary handler does with an error of the
    unary function: it has received the message and asked the stream for
    spec, peer and header, and returns the error. *)
Lemma unaryImplementation_error (Req : ty) (untyped : UnaryFunc) (ctx : Context)
    (conn : StreamingHandlerConn IO) (s s1 s5 : IO) (msg : El Req) (e : error) :
  HC_Receive conn Req (zero Req) s = ((msg, None), s1) ->
  untyped ctx
    (existT Req (mkRequest msg (HC_Spec conn s1).1
                   (HC_Peer conn (HC_Spec conn s1).2).1
                   (HC_RequestHeader conn (HC_Peer conn (HC_Spec conn s1).2).2).1))
    (HC_RequestHeader conn (HC_Peer conn (HC_Spec conn s1).2).2).2
  = (inr e, s5) ->
  unaryImplementation mergeHeaders Req untyped ctx conn s = (Some e, s5).
Proof.
  intros Hrecv Hcall. unfold unaryImplementation, mbind, State_bind.
  rewrite Hrecv.
  destruct (HC_Spec conn s1) as [sp s2]. cbn [fst snd] in *.
  destruct (HC_Peer conn s2) as [pr s3]. cbn [fst snd] in *.
  destruct (HC_RequestHeader conn s3) as [hd s4]. cbn [fst snd] in *.
  by rewrite Hcall.
Qed.

(** C8, as the code has it.  The unary function is the adapter around the
    user's function, inside the interceptor's [WrapUnary] when an
    interceptor is configured.  The check of the context is the first step
    of the adapter, so it is inside the interceptor: with a cancelled
    context the adapter returns the context's error and does not call the
    user's function, and with a context that is not cancelled and a request
    of another type it returns an error of code [Internal], again without
    calling the user's function.  The implementation itself receives the
    message and calls the wrapped function whatever the context; without
    an interceptor a cancelled context ends it with the context's error. *)
Theorem NewUnaryHandler_interceptor_and_checks (Req Res : ty) (procedure : string)
    (unary : Context -> Request (El Req) -> State IO (Response (El Res) + error))
    (options : list HandlerOption) :
  let config := handlerConfigOf procedure options in
  let adapter := unaryAdapter Req Res unary in
  let h := newUnaryHandler Req Res procedure unary options in
  (forall ctx conn s,
     implementation h ctx conn s
     = let '(err, s') :=
         unaryImplementation mergeHeaders Req
           match Config_Interceptor config with
           | Some interceptor => WrapUnary interceptor adapter
           | None => adapter
           end ctx conn s in
       (Returns err, s')) /\
  (forall ctx e request s,
     Context_Err ctx = Some e -> adapter ctx request s = (inr e, s)) /\
  (forall ctx request s,
     Context_Err ctx = None -> projT1 request <> Req ->
     exists err,
       adapter ctx request s = (inr err, s) /\
       err = errorf CodeInternal
               ("unexpected handler request type " +:+ typeName (projT1 request)) /\
       CodeOf err = CodeInternal) /\
  (forall ctx (r : Request (El Req)) s,
     Context_Err ctx = None ->
     adapter ctx (existT Req r) s
     = let '(result, s') := unary ctx r s in
       (match result with
        | inl response => inl (existT Res response)
        | inr err => inr err
        end, s')) /\
  (forall ctx conn s s1 msg e,
     Config_Interceptor config = None ->
     Context_Err ctx = Some e ->
     HC_Receive conn Req (zero Req) s = ((msg, None), s1) ->
     implementation h ctx conn s
     = (Returns (Some e),
        (HC_RequestHeader conn (HC_Peer conn (HC_Spec conn s1).2).2).2)) /\
  (forall ctx conn s s1 msg,
     HC_Receive conn Req (zero Req) s = ((msg, None), s1) ->
     let untyped := match Config_Interceptor config with
                    | Some interceptor => WrapUnary interceptor adapter
                    | None => adapter
                    end in
     let '(sp, s2) := HC_Spec conn s1 in
     let '(pr, s3) := HC_Peer conn s2 in
     let '(hd, s4) := HC_RequestHeader conn s3 in
     implementation h ctx conn s =
     match untyped ctx (existT Req (mkRequest msg sp pr hd)) s4 with
     | (inr err, s5) => (Returns (Some err), s5)
     | (inl (existT t response), s5) =>
         let '(into, s6) := HC_ResponseHeader conn s5 in
         let '((from, response), h6) := Response_Header response (heap s6) in
         let '(_, s7) := mergeHeaders into from (mkIO h6 (written s6) (ext s6)) in
         let '(into, s8) := HC_ResponseTrailer conn s7 in
         let '((from, response), h8) := Response_Trailer response (heap s8) in
         let '(_, s9) := mergeHeaders into from (mkIO h8 (written s8) (ext s8)) in
         let '(err, s10) := HC_Send conn (existT t (Response_Msg response)) s9 in
         (Returns err, s10)
     end).
Proof.
  intros config adapter h.
  assert (Hcancelled : forall ctx e request s,
             Context_Err ctx = Some e -> adapter ctx request s = (inr e, s)).
  { intros ctx e request s Hctx. unfold adapter, unaryAdapter. by rewrite Hctx. }
  split; [|split; [exact Hcancelled|split; [|split; [|split]]]].
  - intros ctx conn s. unfold h, NewUnaryHandler, wrapUnary. cbn [implementation].
    fold config. fold adapter. unfold mbind, State_bind, mret, State_ret.
    by destruct (unaryImplementation _ _ _ _ _ _).
  - intros ctx request s Hctx Hne. eexists. split; [|split; reflexivity].
    unfold adapter, unaryAdapter. rewrite Hctx.
    by rewrite (assertRequest_other Req request Hne).
  - intros ctx r s Hctx. unfold adapter, unaryAdapter. rewrite Hctx.
    rewrite assertRequest_same. unfold mbind, State_bind, mret, State_ret.
    by destruct (unary ctx r s) as [[response|err] s'].
  - intros ctx conn s s1 msg e Hnone Hctx Hrecv.
    unfold h, NewUnaryHandler, wrapUnary. cbn [implementation].
    fold config. rewrite Hnone. fold adapter.
    unfold mbind at 1. unfold State_bind at 1.
    erewrite (unaryImplementation_error Req adapter ctx conn s s1 _ msg e Hrecv);
      [done|].
    by apply Hcancelled.
  - intros ctx conn s s1 msg Hrecv untyped.
    unfold h, NewUnaryHandler, wrapUnary. cbn [implementation].
    fold config. fold adapter. fold untyped.
    unfold unaryImplementation, liftHeap, Response_Any, mbind, State_bind,
      mret, State_ret.
    rewrite Hrecv.
    destruct (HC_Spec conn s1) as [sp s2].
    destruct (HC_Peer conn s2) as [pr s3].
    destruct (HC_RequestHeader conn s3) as [hd s4].
    destruct (untyped ctx _ s4) as [[[t response]|err] s5]; [|done].
    destruct (HC_ResponseHeader conn s5) as [into s6].
    destruct (Response_Header response (heap s6)) as [[from r1] h6].
    destruct (mergeHeaders into from _) as [[] s7].
    destruct (HC_ResponseTrailer conn s7) as [into' s8].
    destruct (Response_Trailer r1 (heap s8)) as [[from' r2] h8].
    destruct (mergeHeaders into' from' _) as [[] s9].
    by destruct (HC_Send conn _ s9) as [err s10].
Qed.

End ConstructorFacts.

(** ** The properties on the sample handlers *)

Section HandlerSamples.
Import Errors Header Connect Handler Samples.

(** The user's function fails: [Close] is called once, with its error. *)
Lemma ServeHTTP_Close_once_witness :
  exists events,
    trace (serve (sampleHandler StreamTypeUnary (returning (Some noSuchUser)))
                 (sampleRequest "POST" 1) "Application/JSON").2 = events /\
    closes events = [Some noSuchUser] /\
    implementationCalls events = 1%nat.
Proof.
  pose (s := selected (sampleRequest "POST" 1) "Application/JSON" "application/json").
  destruct (ServeHTTP_Close_once canonicalizeContentType
              (sampleHandler StreamTypeUnary (returning (Some noSuchUser)))
              connectHandler sampleWriter (sampleRequest "POST" 1)
              (arriving "Application/JSON")
              derived (Some (note "cancel")) None sampleConnCloser s s)
    as (events & Htrace & Hout & Hcloses & Hcalls & Hio);
    [reflexivity|reflexivity|vm_compute; reflexivity|reflexivity|reflexivity|].
  exists events. split; [exact Htrace|]. split; [exact Hcloses|exact Hcalls].
Defined.

(** C1 as stated fails: the stream is built, the implementation panics, and
    [Close] is not called at all. *)
Lemma ServeHTTP_panic_skips_Close :
  let request := sampleRequest "POST" 2 in
  let run := serve (sampleHandler StreamTypeUnary panicking) request "application/json" in
  (NewConn connectHandler sampleWriter (WithContext request derived)
     (selected request "application/json" "application/json")).1
  = Some sampleConnCloser /\
  run.1 = Panicking "nil pointer dereference" /\
  closes (trace run.2) = [] /\
  implementationCalls (trace run.2) = 1%nat /\
  ext (io run.2) = ["implementation"; "cancel"] /\
  length (closes (trace run.2)) <> 1%nat.
Proof. vm_compute. repeat split. discriminate. Qed.

(** The second sample handler finds a malformed timeout. *)
Lemma ServeHTTP_timeout_error_witness :
  let request := sampleRequest "POST" 2 in
  let run := serve (sampleHandler StreamTypeUnary (returning None)) request
                   "application/grpc" in
  run.1 = Done /\
  trace run.2
  = [EvSetTimeout request "application/grpc";
     EvNewConn (WithContext request background) "application/grpc";
     EvClose (Some timeoutParseError); EvCancel] /\
  ext (io run.2) = ["Close"; "cancel"].
Proof.
  intros request run.
  assert (Hfind : findProtocolHandler (sampleHandler StreamTypeUnary (returning None))
                    (requestContentType canonicalizeContentType request
                       (io (arriving "application/grpc")))
                  = Some grpcHandler) by (vm_compute; reflexivity).
  pose proof (ServeHTTP_timeout_error canonicalizeContentType
                (sampleHandler StreamTypeUnary (returning None))
                grpcHandler sampleWriter request (arriving "application/grpc")
                derived (Some (note "cancel")) timeoutParseError
                (selected request "application/grpc" "application/grpc")
                eq_refl eq_refl Hfind eq_refl) as Hrun.
  unfold run, serve. rewrite Hrun. vm_compute. repeat split.
Defined.

(** A GET to a unary handler. *)
Lemma ServeHTTP_method_not_allowed_witness :
  let run := serve (sampleHandler StreamTypeUnary (returning None))
                   (sampleRequest "GET" 1) "application/json" in
  exists header,
    run.1 = Done /\ trace run.2 = [] /\ ext (io run.2) = [] /\
    written (io run.2) = Some (405%Z, header) /\ Get header "Allow" = "POST".
Proof.
  intros run.
  destruct (ServeHTTP_method_not_allowed canonicalizeContentType
              (sampleHandler StreamTypeUnary (returning None)) sampleWriter
              (sampleRequest "GET" 1) (arriving "application/json"))
    as [H405 _]; [discriminate|reflexivity|].
  destruct (H405 eq_refl) as (header & Hrun & Hwritten & Hallow).
  exists header. unfold run, serve. rewrite Hrun.
  repeat split; [exact Hwritten|exact Hallow].
Defined.

(** C3 as stated fails: a GET over HTTP/1.1 to a bidirectional handler is
    answered with 505, and no [Allow] header is set. *)
Lemma ServeHTTP_bidi_http1_GET :
  let run := serve (sampleHandler StreamTypeBidi (returning None))
                   (sampleRequest "GET" 1) "application/json" in
  Method (sampleRequest "GET" 1) <> MethodPost /\
  written (io run.2) = Some (505%Z, ∅) /\
  contents (heap (io run.2)) writerHeaderLoc !! "Allow" = None /\
  ~ (exists header, written (io run.2) = Some (405%Z, header)).
Proof.
  intros run. split; [discriminate|].
  assert (Hwritten : written (io run.2) = Some (505%Z, ∅)) by (vm_compute; reflexivity).
  split; [exact Hwritten|]. split; [vm_compute; reflexivity|].
  intros [header Hheader]. rewrite Hwritten in Hheader. discriminate.
Qed.

(** A request in mixed case is served by the first sample handler: the
    request carries the canonical content type afterwards, and the calls
    are those of the serving path.  The handler built by [NewUnaryHandler]
    keeps the sorted list. *)
Lemma ServeHTTP_protocol_selection_witness :
  let request := sampleRequest "POST" 2 in
  let h := sampleHandler StreamTypeUnary (returning None) in
  serve h request "Application/JSON"
  = serveStream h connectHandler sampleWriter request "application/json"
      (arriving "Application/JSON") /\
  acceptPost (samplePingHandler [])
  = "application/grpc, application/grpc+proto, application/grpc-web, application/json, application/proto" /\
  heap (io (serve h request "Application/JSON").2) !! requestHeaderLoc
  = Some {[ "Content-Type" := ["application/json"] ]} /\
  trace (serve h request "Application/JSON").2
  = [EvSetTimeout request "application/json";
     EvNewConn (WithContext request derived) "application/json";
     EvImplementation derived; EvClose None; EvCancel] /\
  ext (io (serve h request "Application/JSON").2) = ["implementation"; "Close"; "cancel"].
Proof.
  intros request h.
  assert (Hfind : findProtocolHandler h
                    (requestContentType canonicalizeContentType request
                       (io (arriving "Application/JSON")))
                  = Some connectHandler) by (vm_compute; reflexivity).
  pose proof (ServeHTTP_protocol_selection canonicalizeContentType mergeHeaders
                (Codec := unit) (compressionPool := unit)
                (fun c => c) (fun c => c) (fun c => c)
                (sampleProtocol connectHandler)
                (fun web => sampleProtocol (if web then grpcWebHandler else grpcHandler))
                (fun _ => tt) (fun _ _ => tt)
                h sampleWriter request (arriving "Application/JSON")
                eq_refl eq_refl) as [Hsel Hsorted].
  rewrite Hfind in Hsel. destruct Hsel as (_ & Hserve & _ & _ & Hfull).
  assert (Hct : requestContentType canonicalizeContentType request
                  (io (arriving "Application/JSON"))
                = "application/json") by (vm_compute; reflexivity).
  rewrite Hct in Hserve, Hfull.
  split; [exact Hserve|]. split.
  - destruct (Hsorted PingRequest PingResponse "/acme.Foo/Bar" pingUnary [])
      as (Haccept & _).
    refine (eq_trans Haccept _). vm_compute. reflexivity.
  - cbv zeta in Hfull. cbn [SetTimeout NewConn connectHandler mret State_ret] in Hfull.
    unfold serve. split; [|split].
    + refine (eq_trans (f_equal (fun r => heap (io r.2) !! requestHeaderLoc) Hfull) _).
      vm_compute. reflexivity.
    + refine (eq_trans (f_equal (fun r => trace r.2) Hfull) _).
      vm_compute. reflexivity.
    + refine (eq_trans (f_equal (fun r => ext (io r.2)) Hfull) _).
      vm_compute. reflexivity.
Defined.

Example ServeHTTP_unsupported_media_type :
  let run := serve (sampleHandler StreamTypeUnary (returning None))
                   (sampleRequest "POST" 2) "text/html" in
  run.1 = Done /\ trace run.2 = [] /\
  (exists header,
     written (io run.2) = Some (415%Z, header) /\
     Get header "Accept-Post"
     = "application/grpc, application/grpc+proto, application/grpc-web, application/json, application/proto").
Proof.
  vm_compute. repeat split. eexists. split; reflexivity.
Qed.

(** Without an interceptor a cancelled context ends the unary handler with
    the context's error, after the message was received; with the caching
    interceptor the same context ends it with the interceptor's answer
    sent. *)
Lemma NewUnaryHandler_interceptor_and_checks_witness :
  let run := implementation (samplePingHandler []) cancelled sampleStream inStream in
  let run' := implementation (samplePingHandler [WithInterceptor cachingInterceptor])
                cancelled sampleStream inStream in
  (run.1 = Returns (Some context_Canceled) /\ ext run.2 = ["Receive"]) /\
  (run'.1 = Returns None /\ ext run'.2 = ["Receive"; "interceptor"; "Send"]).
Proof.
  intros run run'. split.
  - destruct (NewUnaryHandler_interceptor_and_checks mergeHeaders
                (Codec := unit) (compressionPool := unit)
                (fun c => c) (fun c => c) (fun c => c)
                (sampleProtocol connectHandler)
                (fun web => sampleProtocol (if web then grpcWebHandler else grpcHandler))
                (fun _ => tt) (fun _ _ => tt)
                PingRequest PingResponse "/acme.Foo/Bar" pingUnary [])
      as (_ & _ & _ & _ & Hcancelled & _).
    pose proof (Hcancelled cancelled sampleStream inStream
                  (mkIO (heap inStream) (written inStream) ["Receive"]) "ping"
                  context_Canceled eq_refl eq_refl eq_refl) as Hrun.
    split.
    + exact (f_equal fst Hrun).
    + exact (f_equal (fun r => ext r.2) Hrun).
  - destruct (NewUnaryHandler_interceptor_and_checks mergeHeaders
                (Codec := unit) (compressionPool := unit)
                (fun c => c) (fun c => c) (fun c => c)
                (sampleProtocol connectHandler)
                (fun web => sampleProtocol (if web then grpcWebHandler else grpcHandler))
                (fun _ => tt) (fun _ _ => tt)
                PingRequest PingResponse "/acme.Foo/Bar" pingUnary
                [WithInterceptor cachingInterceptor])
      as (_ & _ & _ & _ & _ & Hruns).
    pose proof (Hruns cancelled sampleStream inStream
                  (mkIO (heap inStream) (written inStream) ["Receive"]) "ping"
                  eq_refl) as Hrun.
    split.
    + refine (eq_trans (f_equal fst Hrun) _). vm_compute. reflexivity.
    + refine (eq_trans (f_equal (fun r => ext r.2) Hrun) _). vm_compute. reflexivity.
Defined.

(** C8 as stated fails: with a cancelled context the interceptor runs all
    the same, after the message was received; this one answers itself, so
    the handler sends a response and ends without error. *)
Lemma unary_interceptor_runs_on_cancelled_context :
  let run := implementation (samplePingHandler [WithInterceptor cachingInterceptor])
               cancelled sampleStream inStream in
  Context_Err cancelled = Some context_Canceled /\
  run.1 = Returns None /\
  ext run.2 = ["Receive"; "interceptor"; "Send"] /\
  ~ (run.1 = Returns (Some context_Canceled) /\ "interceptor" ∉ ext run.2).
Proof.
  vm_compute. repeat split. intros [Hbad _]. discriminate.
Qed.

Example unary_logging_interceptor_on_cancelled_context :
  let run := implementation (samplePingHandler [WithInterceptor loggingInterceptor])
               cancelled sampleStream inStream in
  run.1 = Returns (Some context_Canceled) /\ ext run.2 = ["Receive"; "interceptor"].
Proof. vm_compute. by split. Qed.

Example unary_swapped_request_is_internal :
  let run := implementation (samplePingHandler [WithInterceptor swappingInterceptor])
               background sampleStream inStream in
  exists err,
    run.1 = Returns (Some err) /\ CodeOf err = CodeInternal /\ ext run.2 = ["Receive"].
Proof. vm_compute. eexists. by repeat split. Qed.

End HandlerSamples.

(* ================================================================== *)
(** * Further properties of the code *)
(* ================================================================== *)

(** ** Procedure paths *)

Section ProtoPathMore.
Import ProtoPath.

Lemma slashes_append (a b : string) : slashes (a +:+ b) = (slashes a + slashes b)%nat.
Proof.
  induction a as [|c a IH]; simpl; [done|]. rewrite IH. lia.
Qed.

Lemma slashes_no_slash (s : string) : has_slash s = false -> slashes s = 0%nat.
Proof.
  induction s as [|c s IH]; simpl; [done|].
  intros [Hc Hs]%orb_false_iff. rewrite Hc, (IH Hs). done.
Qed.

Lemma Split_append (p s : string) :
  Split (p +:+ String slash s) = Split p ++ Split s.
Proof.
  induction p as [|c p IH]; simpl; [done|].
  rewrite IH. destruct (Ascii.eqb c slash); [done|].
  by destruct (Split_cons p) as (hd & tl & ->).
Qed.

(** The result always starts with a slash and has no more slashes than the
    normal form has: two when the input has a slash, one when it has
    none.  The doc comment of the source promises the leading slash. *)
Theorem extractProtoPath_shape (s : string) :
  (exists rest, extractProtoPath s = String slash rest) /\
  slashes (extractProtoPath s) = (if has_slash s then 2 else 1)%nat /\
  length (Split (extractProtoPath s)) = (if has_slash s then 3 else 2)%nat.
Proof.
  destruct (has_slash s) eqn:Hs.
  - destruct (Split_last_two s Hs) as (pre & pkg & method & Hsplit).
    pose proof (Split_segments_no_slash s) as Hall.
    rewrite Hsplit in Hall. apply Forall_app in Hall as [_ Hall].
    inversion Hall as [|? ? Hpkg Hall']; subst.
    inversion Hall' as [|? ? Hmethod _]; subst.
    rewrite (extractProtoPath_last_two s pre pkg method Hsplit).
    split; [by eexists|]. split.
    + rewrite !slashes_append, (slashes_no_slash _ Hpkg), (slashes_no_slash _ Hmethod).
      reflexivity.
    + by rewrite (Split_normal_form pkg method Hpkg Hmethod).
  - rewrite (extractProtoPath_no_slash s Hs). split; [by eexists|]. split.
    + by rewrite slashes_append, (slashes_no_slash _ Hs).
    + change ("/" +:+ s) with (String slash s). cbn [Split].
      rewrite Ascii.eqb_refl. by rewrite (Split_no_slash s Hs).
Qed.

(** Whatever stands before the last two segments does not matter: a
    prefix that ends in a slash, such as a scheme and a host, is dropped. *)
Theorem extractProtoPath_drops_prefix (prefix s : string) :
  has_slash s = true ->
  extractProtoPath (prefix +:+ "/" +:+ s) = extractProtoPath s.
Proof.
  intros Hs. destruct (Split_last_two s Hs) as (pre & pkg & method & Hsplit).
  rewrite (extractProtoPath_last_two s pre pkg method Hsplit).
  apply (extractProtoPath_last_two _ (Split prefix ++ pre)).
  change ("/" +:+ s) with (String slash s).
  by rewrite Split_append, Hsplit, app_assoc.
Qed.

Lemma extractProtoPath_drops_prefix_witness :
  extractProtoPath ("https://example.com:443" +:+ "/" +:+ "acme.foo.v1.FooService/Bar")
  = extractProtoPath "acme.foo.v1.FooService/Bar".
Proof. apply extractProtoPath_drops_prefix. reflexivity. Defined.

End ProtoPathMore.

(** ** Envelopes *)

Section EnvelopeMore.
Import Errors Header Connect.

Lemma make_keeps (h : Heap) (l : loc) :
  is_Some (h !! l) -> (make h).2 !! l = h !! l.
Proof.
  intros Hl. unfold make. simpl. apply lookup_insert_ne.
  intros <-. rewrite (not_elem_of_dom_1 _ _ (is_fresh (dom h))) in Hl. by destruct Hl.
Qed.

(** The accessors leave every header map that is already in the store as
    it is: a map they allocate never takes the place of one in use. *)
Theorem accessors_keep_other_maps T (rq : Request T) (rs : Response T)
    (h : Heap) (l : loc) :
  is_Some (h !! l) ->
  (Request_Header rq h).2 !! l = h !! l /\
  (Response_Header rs h).2 !! l = h !! l /\
  (Response_Trailer rs h).2 !! l = h !! l.
Proof.
  intros Hl. repeat split.
  - destruct rq as [msg sp pr [l0|]]; cbn; [done|]. by apply (make_keeps h l).
  - destruct rs as [msg [l0|] tr]; cbn; [done|]. by apply (make_keeps h l).
  - destruct rs as [msg hd [l0|]]; cbn; [done|]. by apply (make_keeps h l).
Qed.

Lemma accessors_keep_other_maps_witness :
  let h : Heap := {[ 1%positive := {[ "Accept" := ["text/plain"] ]} ]} in
  (Request_Header (NewRequest "ping") h).2 !! 1%positive
  = Some {[ "Accept" := ["text/plain"] ]}.
Proof.
  intros h.
  destruct (accessors_keep_other_maps string (NewRequest "ping") (NewResponse "pong")
              h 1%positive) as (Hrq & _).
  - eexists. reflexivity.
  - exact (eq_trans Hrq eq_refl).
Defined.

(** On a response whose header and trailer are both nil, as [NewResponse]
    builds it, the two accessors allocate two different maps: what is
    written to the header does not show in the trailer. *)
Theorem Response_header_trailer_distinct T (r : Response T) (h : Heap) :
  Response_header r = None -> Response_trailer r = None ->
  exists l1 l2 r1 r2 h1 h2,
    Response_Header r h = ((Some l1, r1), h1) /\
    Response_Trailer r1 h1 = ((Some l2, r2), h2) /\
    l1 <> l2 /\
    Response_header r2 = Some l1 /\ Response_trailer r2 = Some l2 /\
    forall key value,
      Get (contents (set_at l1 key value h2) l1) key = value /\
      contents (set_at l1 key value h2) l2 = ∅.
Proof.
  destruct r as [msg hd tr]. simpl. intros -> ->.
  set (l1 := fresh (dom h)). set (h1 := <[l1 := ∅]> h).
  set (l2 := fresh (dom h1)).
  assert (Hne : l1 <> l2).
  { intros Heq. pose proof (is_fresh (dom h1)) as Hfresh. fold l2 in Hfresh.
    apply Hfresh. rewrite <- Heq. unfold h1. rewrite dom_insert. set_solver. }
  exists l1, l2. eexists _, _, h1, (<[l2 := ∅]> h1).
  split; [reflexivity|]. split; [reflexivity|]. split; [done|].
  split; [done|]. split; [done|].
  intros key value. split; [apply contents_set_at|].
  unfold set_at, contents. rewrite lookup_insert_ne by done.
  by rewrite lookup_insert_eq.
Qed.

Lemma Response_header_trailer_distinct_witness :
  exists l1 l2 r1 r2 h1 h2,
    Response_Header (NewResponse "pong") ∅ = ((Some l1, r1), h1) /\
    Response_Trailer r1 h1 = ((Some l2, r2), h2) /\ l1 <> l2.
Proof.
  destruct (Response_header_trailer_distinct string (NewResponse "pong") ∅
              eq_refl eq_refl)
    as (l1 & l2 & r1 & r2 & h1 & h2 & H1 & H2 & Hne & _).
  exists l1, l2, r1, r2, h1, h2. by repeat split.
Defined.

End EnvelopeMore.

(** ** The client's unary helper *)

Section ClientMore.
Import Errors Header Connect.
Context `{MessageTypes} {W : Type}.

(** [receiveUnaryResponse] returns a response in one case only: the first
    [Receive] succeeds and the second fails with an error that wraps
    [io.EOF].  The response then holds the first message and the header
    and trailer the connection gives after the second [Receive]. *)
Theorem receiveUnaryResponse_response_iff (T : ty) (conn : StreamingClientConn W)
    (w : W) (r : Response (El T)) :
  (receiveUnaryResponse T conn w).1 = inl r <->
  exists msg w1 msg2 e w2,
    CC_Receive conn T (zero T) w = ((msg, None), w1) /\
    CC_Receive conn T (zero T) w1 = ((msg2, Some e), w2) /\
    errors_Is e io_EOF = true /\
    r = mkResponse msg (CC_ResponseHeader conn w2).1
          (CC_ResponseTrailer conn (CC_ResponseHeader conn w2).2).1.
Proof.
  unfold receiveUnaryResponse, mbind, State_bind, mret, State_ret. split.
  - destruct (CC_Receive conn T (zero T) w) as [[msg [e1|]] w1] eqn:H1; [done|].
    destruct (CC_Receive conn T (zero T) w1) as [[msg2 [e|]] w2] eqn:H2; [|done].
    destruct (errors_Is e io_EOF) eqn:Heof; [|done]. cbn [negb].
    destruct (CC_ResponseHeader conn w2) as [header w3] eqn:H3.
    destruct (CC_ResponseTrailer conn w3) as [trailer w4] eqn:H4. cbn.
    intros [= <-]. exists msg, w1, msg2, e, w2.
    rewrite H2, H3. cbn. by rewrite H4.
  - intros (msg & w1 & msg2 & e & w2 & -> & -> & -> & ->). cbn [negb].
    destruct (CC_ResponseHeader conn w2) as [header w3]. cbn.
    destruct (CC_ResponseTrailer conn w3) as [trailer w4]. reflexivity.
Qed.

End ClientMore.

Section ClientMoreSamples.
Import Errors Header Connect Samples.

(** The stream breaks before the first message. *)
Lemma receiveUnaryResponse_first_error_witness :
  receiveUnaryResponse PingResponse scriptedConn
    [inr (errors_New "connection reset"); inl "late"]
  = (inr (errors_New "connection reset"), [inl "late"]).
Proof.
  exact (receiveUnaryResponse_first_error PingResponse scriptedConn
           [inr (errors_New "connection reset"); inl "late"] [inl "late"] ""
           (errors_New "connection reset") eq_refl).
Defined.

End ClientMoreSamples.

(** ** The buffer pool *)

Section BufferPoolMore.
Import BufferPool.

Lemma NoDup_delete_lookup {A} (l : list A) (i : nat) (x : A) :
  NoDup l -> l !! i = Some x -> x ∉ delete i l.
Proof.
  intros Hnd. revert i. induction Hnd as [|y l Hy Hnd IH]; intros [|i]; simpl; try done.
  - by intros [= ->].
  - intros Hx [->|Hin]%elem_of_cons.
    + apply Hy. by eapply list_elem_of_lookup_2.
    + by apply (IH i).
Qed.

Lemma NoDup_delete {A} (l : list A) (i : nat) : NoDup l -> NoDup (delete i l).
Proof.
  intros Hnd. revert i. induction Hnd as [|y l Hy Hnd IH]; intros [|i]; simpl.
  - constructor.
  - constructor.
  - done.
  - constructor; [|by apply IH]. intros Hin. apply Hy.
    by apply elem_of_delete_index in Hin.
Qed.

Lemma reachable_NoDup lo st : reachable lo st -> NoDup (pool st).
Proof.
  induction 1 as [|st b _ IH|st p b b' _ IH Hp Hb Hcap|st pick _ IH
                  |st p b _ IH Hp Hb Hcap|st i _ IH]; simpl; try done.
  - constructor.
  - destruct (Get_cases pick st) as [(i & _ & ->)|[_ ->]]; simpl; [|done].
    by apply NoDup_delete.
  - unfold Put. rewrite Hb.
    destruct (maxRecycleBufferSize <? Cap b)%Z; simpl; [done|].
    by constructor.
  - by apply NoDup_delete.
Qed.

(** A buffer that [Get] has handed out is not in the pool any more, and the
    next [Get] hands out another one: while callers keep to putting back
    only buffers they hold, no buffer has two holders. *)
Theorem Get_twice_distinct lo st pick pick' :
  reachable lo st ->
  ((Get pick st).1 ∉ pool (Get pick st).2) /\
  (Get pick' (Get pick st).2).1 <> (Get pick st).1.
Proof.
  intros Hreach.
  pose proof (reachable_pooled_ok lo st Hreach) as Hok.
  pose proof (reachable_NoDup lo st Hreach) as Hnd.
  destruct (Get_cases pick st) as [(i & Hi & Hst)|[Hp Hst]]; rewrite Hst.
  - assert (Hstored : is_Some (buffers st !! (Get pick st).1)).
    { destruct (Hok _ (list_elem_of_lookup_2 _ _ _ Hi)) as (b & Hb & _). by eexists. }
    split; [by apply NoDup_delete_lookup|].
    destruct (Get_cases pick' (mkPoolState (buffers st) (delete i (pool st))))
      as [(j & Hj & _)|[Hq _]]; simpl in *.
    + intros Heq. rewrite Heq in Hj.
      apply (NoDup_delete_lookup _ _ _ Hnd Hi). by eapply list_elem_of_lookup_2.
    + rewrite Hq. intros Heq. rewrite <- Heq, fresh_not_stored in Hstored.
      by destruct Hstored.
  - assert (Hout : (Get pick st).1 ∉ pool st).
    { intros Hin. destruct (Hok _ Hin) as (b & Hb & _).
      by rewrite Hp, fresh_not_stored in Hb. }
    split; [done|].
    destruct (Get_cases pick'
                (mkPoolState (<[fresh (dom (buffers st)) := New]> (buffers st)) (pool st)))
      as [(j & Hj & _)|[Hq _]]; simpl in *.
    + intros Heq. rewrite Heq in Hj. apply Hout. by eapply list_elem_of_lookup_2.
    + rewrite Hq, Hp. intros Heq.
      pose proof (fresh_not_stored (<[fresh (dom (buffers st)) := New]> (buffers st)))
        as Hfresh.
      rewrite Heq, lookup_insert_eq in Hfresh. done.
Qed.

(** [Put] keeps a buffer exactly when its capacity is at most 8388608
    bytes: the bound itself is still recycled. *)
Theorem Put_recycles_iff st p b :
  buffers st !! p = Some b -> p ∉ pool st ->
  (p ∈ pool (Put p st).2 <-> (Cap b <= 8388608)%Z).
Proof.
  intros Hb Hp. unfold Put. rewrite Hb.
  change maxRecycleBufferSize with 8388608%Z.
  destruct (Z.ltb_spec 8388608 (Cap b)); simpl.
  - split; [done|lia].
  - split; [done|]. intros _. apply elem_of_cons. by left.
Qed.

(** A buffer that was put back and is the one the pool hands out next
    comes back at the same pointer, empty and with the capacity it had;
    the pool is as it was before the [Put]. *)
Theorem Put_then_Get st p b :
  buffers st !! p = Some b -> (Cap b <= maxRecycleBufferSize)%Z ->
  Get (Some 0%nat) (Put p st).2
  = (p, mkPoolState (<[p := mkBuffer [] (Cap b)]> (buffers st)) (pool st)).
Proof.
  intros Hb Hcap. unfold Put. rewrite Hb.
  by replace (maxRecycleBufferSize <? Cap b)%Z with false
    by (symmetry; apply Z.ltb_ge; lia).
Qed.

(** When the pool has nothing to offer, because it is empty or the choice
    falls outside of it, [Get] builds a new empty buffer of capacity 512 at
    a pointer no buffer has yet, and changes nothing else. *)
Theorem Get_builds_new st pick :
  (forall i, pick = Some i -> (length (pool st) <= i)%nat) ->
  buffers st !! (Get pick st).1 = None /\
  (Get pick st).2
  = mkPoolState (<[(Get pick st).1 := mkBuffer [] 512]> (buffers st)) (pool st).
Proof.
  intros Hpick. unfold Get. destruct pick as [i|]; simpl.
  - rewrite (lookup_ge_None_2 (pool st) i (Hpick i eq_refl)). simpl.
    split; [apply fresh_not_stored|done].
  - split; [apply fresh_not_stored|done].
Qed.

End BufferPoolMore.

Section BufferPoolMoreSamples.
Import BufferPool.

Lemma Get_twice_distinct_witness :
  let st := (Put 1%positive (Get None newBufferPool).2).2 in
  (Get (Some 0%nat) st).1 = 1%positive /\
  (Get (Some 0%nat) (Get (Some 0%nat) st).2).1 <> (Get (Some 0%nat) st).1.
Proof.
  intros st. split; [reflexivity|].
  apply (Get_twice_distinct 512 st (Some 0%nat) (Some 0%nat)).
  apply (reach_put 512 (Get None newBufferPool).2 1%positive New).
  - apply reach_get, reach_new.
  - apply not_elem_of_nil.
  - reflexivity.
  - unfold New, initialBufferSize. simpl. lia.
Defined.

Lemma Put_recycles_iff_witness :
  let st := (alloc (mkBuffer [] 8388608) newBufferPool).2 in
  1%positive ∈ pool (Put 1%positive st).2.
Proof.
  intros st.
  apply (Put_recycles_iff st 1%positive (mkBuffer [] 8388608)).
  - reflexivity.
  - apply not_elem_of_nil.
  - simpl. lia.
Defined.

Lemma Put_then_Get_witness :
  let st := (alloc (mkBuffer [Byte.x41; Byte.x42] 1024) newBufferPool).2 in
  (Get (Some 0%nat) (Put 1%positive st).2).1 = 1%positive /\
  buffers (Get (Some 0%nat) (Put 1%positive st).2).2 !! 1%positive
  = Some (mkBuffer [] 1024).
Proof.
  intros st.
  rewrite (Put_then_Get st 1%positive (mkBuffer [Byte.x41; Byte.x42] 1024)).
  - split; reflexivity.
  - reflexivity.
  - change (1024 <= 8388608)%Z. lia.
Defined.

Lemma Get_builds_new_witness :
  (Get (Some 3%nat) newBufferPool).2
  = mkPoolState {[ (Get (Some 3%nat) newBufferPool).1 := mkBuffer [] 512 ]} [].
Proof.
  destruct (Get_builds_new newBufferPool (Some 3%nat)) as [_ Hst].
  - intros i _. simpl. lia.
  - rewrite Hst. reflexivity.
Defined.

End BufferPoolMoreSamples.

(** ** The handler *)

Section HandlerMore.
Import Errors Header Connect Handler.
Context `{MessageTypes} {U : Type}.
Context (canonicalizeContentType : string -> string).

Local Abbreviation IO := (@IO U).
Local Abbreviation World := (@World U).
Local Abbreviation protocolHandler := (@protocolHandler _ U).
Local Abbreviation Handler := (@Handler _ U).
Local Abbreviation CancelFunc := (@CancelFunc U).

Lemma testbit_3 (n : Z) :
  (0 <= n)%Z -> Z.testbit 3 n = (n =? 0)%Z || (n =? 1)%Z.
Proof.
  intros Hn. change 3%Z with (Z.ones 2).
  destruct (Z.ltb_spec n 2).
  - rewrite Z.ones_spec_low by lia. symmetry. apply orb_true_iff. lia.
  - rewrite Z.ones_spec_high by lia. symmetry. apply orb_false_iff. lia.
Qed.

(** A handler counts as bidirectional exactly when both stream bits of its
    stream type are set, whatever the other bits are. *)
Theorem isBidi_both_bits (h : Handler) :
  isBidi h = true <->
  Z.testbit (Spec_StreamType (spec h)) 0 = true /\
  Z.testbit (Spec_StreamType (spec h)) 1 = true.
Proof.
  unfold isBidi. change StreamTypeBidi with 3%Z.
  set (st := Spec_StreamType (spec h)). rewrite Z.eqb_eq. split.
  - intros Heq. split.
    + apply (f_equal (fun x => Z.testbit x 0)) in Heq.
      rewrite Z.land_spec in Heq. by apply andb_true_iff in Heq as [? _].
    + apply (f_equal (fun x => Z.testbit x 1)) in Heq.
      rewrite Z.land_spec in Heq. by apply andb_true_iff in Heq as [? _].
  - intros [H0 H1]. apply Z.bits_inj'. intros n Hn.
    rewrite Z.land_spec, (testbit_3 n Hn).
    destruct (Z.eqb_spec n 0) as [->|]; [by rewrite H0|].
    destruct (Z.eqb_spec n 1) as [->|]; [by rewrite H1|].
    simpl. apply andb_false_r.
Qed.

(** A bidirectional handler answers every request below HTTP/2 with status
    505, whatever its method and content type: no header is set, the
    request is not looked at further, and nothing is called. *)
Theorem ServeHTTP_version_gate (h : Handler) (rw : ResponseWriter)
    (request : HTTPRequest) (w : World) :
  isBidi h = true -> (ProtoMajor request < 2)%Z ->
  let run := ServeHTTP canonicalizeContentType h rw request w in
  run.1 = Done /\ trace run.2 = trace w /\
  heap (io run.2) = heap (io w) /\ ext (io run.2) = ext (io w) /\
  (written (io w) = None ->
   written (io run.2) = Some (505%Z, contents (heap (io w)) (RW_Header rw))).
Proof.
  intros Hbidi Hproto. unfold ServeHTTP. rewrite Hbidi.
  replace (ProtoMajor request <? 2)%Z with true by (symmetry; apply Z.ltb_lt; lia).
  unfold WriteHeader, liftIO, modify, mbind, State_bind, mret, State_ret. cbn.
  repeat split; by destruct (written (io w)).
Qed.

(** On each of its three refusals (HTTP version, method, content type)
    [ServeHTTP] touches the response writer only: no protocol handler, no
    stream and no implementation is called, and no header map other than
    the response writer's changes, so the request keeps its
    [Content-Type]. *)
Theorem ServeHTTP_refusals_are_local (h : Handler) (rw : ResponseWriter)
    (request : HTTPRequest) (w : World) :
  isBidi h && (ProtoMajor request <? 2)%Z = true \/
  Method request <> MethodPost \/
  findProtocolHandler h (requestContentType canonicalizeContentType request (io w))
  = None ->
  let run := ServeHTTP canonicalizeContentType h rw request w in
  run.1 = Done /\ trace run.2 = trace w /\ ext (io run.2) = ext (io w) /\
  (forall l, l <> RW_Header rw -> heap (io run.2) !! l = heap (io w) !! l) /\
  (written (io w) = None ->
   exists code header,
     written (io run.2) = Some (code, header) /\ (code = 505 \/ code = 405 \/ code = 415)%Z).
Proof.
  intros Hrefused.
  assert (Hset : forall key value code,
    let s' := respond rw key value code (io w) in
    ext s' = ext (io w) /\
    (forall l, l <> RW_Header rw -> heap s' !! l = heap (io w) !! l) /\
    (written (io w) = None -> exists header, written s' = Some (code, header))).
  { intros key value code. unfold respond, RW_Header_Set, WriteHeader, modify. cbn.
    destruct (written (io w)) eqn:Hw; cbn.
    - split; [done|]. split; [|done].
      intros l Hl. unfold set_at. by rewrite lookup_insert_ne.
    - split; [done|]. split; [|by eexists].
      intros l Hl. unfold set_at. by rewrite lookup_insert_ne. }
  destruct (isBidi h && (ProtoMajor request <? 2)%Z) eqn:Hgate.
  - unfold ServeHTTP. rewrite Hgate.
    unfold WriteHeader, liftIO, modify, mbind, State_bind, mret, State_ret. cbn.
    destruct (written (io w)) eqn:Hw; cbn; repeat split; try done.
    intros _. eexists _, _. split; [reflexivity|]. by left.
  - destruct (String.eqb_spec (Method request) MethodPost) as [Hpost|Hother].
    + destruct Hrefused as [?|[?|Hnone]]; [done|done|].
      cbv zeta. rewrite (ServeHTTP_unsupported canonicalizeContentType h rw request w
                 Hgate Hpost Hnone). cbn [fst snd io trace].
      destruct (Hset "Accept-Post" (acceptPost h) 415%Z) as (Hext & Hheap & Hwritten).
      repeat split; try done.
      intros Hw. destruct (Hwritten Hw) as [header Hheader].
      exists 415%Z, header. split; [done|]. by right; right.
    + assert (Hrun : ServeHTTP canonicalizeContentType h rw request w
                     = (Done, mkWorld (respond rw "Allow" "POST" 405 (io w)) (trace w))).
      { unfold ServeHTTP. rewrite Hgate.
        apply String.eqb_neq in Hother. rewrite Hother. cbn [negb].
        unfold respond, RW_Header_Set, WriteHeader, liftIO, modify, mbind, State_bind,
          mret, State_ret. by destruct w. }
      cbv zeta. rewrite Hrun. cbn [fst snd io trace].
      destruct (Hset "Allow" "POST" 405%Z) as (Hext & Hheap & Hwritten).
      repeat split; try done.
      intros Hw. destruct (Hwritten Hw) as [header Hheader].
      exists 405%Z, header. split; [done|]. by right; left.
Qed.

(** When the protocol handler refuses to build the stream, neither the
    implementation nor [Close] is called; the cancel function, when there
    is one, still is. *)
Theorem ServeHTTP_NewConn_refused (h : Handler) (ph : protocolHandler)
    (rw : ResponseWriter) (request : HTTPRequest) (w : World)
    (ctx : Context) (cancel : option CancelFunc) (timeoutErr : option error)
    (s1 s2 : IO) :
  let ct := requestContentType canonicalizeContentType request (io w) in
  let ctx' := match timeoutErr with
              | Some _ => Request_Context request
              | None => ctx
              end in
  isBidi h && (ProtoMajor request <? 2)%Z = false ->
  Method request = MethodPost ->
  findProtocolHandler h ct = Some ph ->
  SetTimeout ph request (withContentType request ct (io w))
  = ((ctx, cancel, timeoutErr), s1) ->
  NewConn ph rw (WithContext request ctx') s1 = (None, s2) ->
  ServeHTTP canonicalizeContentType h rw request w
  = (Done,
     mkWorld (runCancel cancel s2)
       (trace w
          ++ [EvSetTimeout request ct;
              EvNewConn (WithContext request ctx')
                (Get (contents (heap s1) (Request_Header_map request)) "Content-Type")]
          ++ cancelEvents cancel)).
Proof.
  intros ct ctx' Hgate Hmethod Hfind Htimeout Hconn.
  rewrite (ServeHTTP_selected canonicalizeContentType h ph rw request w
             Hgate Hmethod Hfind).
  pose proof (serveStream_run h ph rw request ct w) as Hrun.
  cbv zeta in Hrun. rewrite Htimeout in Hrun. fold ctx' in Hrun.
  by rewrite Hconn in Hrun.
Qed.

Local Ltac no_cancel :=
  let Hin := fresh "Hin" in
  intros Hin;
  repeat (apply elem_of_cons in Hin as [Hin|Hin]; [discriminate|]);
  by apply elem_of_nil in Hin.

(** Once a protocol handler is found, the cancel function it returns is
    called on every way out of [ServeHTTP], a panic of the implementation
    included, exactly once and after everything else. *)
Theorem ServeHTTP_cancel_last (h : Handler) (ph : protocolHandler)
    (rw : ResponseWriter) (request : HTTPRequest) (w : World)
    (ctx : Context) (cancel : option CancelFunc) (timeoutErr : option error)
    (s1 : IO) :
  let ct := requestContentType canonicalizeContentType request (io w) in
  isBidi h && (ProtoMajor request <? 2)%Z = false ->
  Method request = MethodPost ->
  findProtocolHandler h ct = Some ph ->
  SetTimeout ph request (withContentType request ct (io w))
  = ((ctx, cancel, timeoutErr), s1) ->
  exists events s,
    (ServeHTTP canonicalizeContentType h rw request w).2
    = mkWorld (runCancel cancel s) (trace w ++ events ++ cancelEvents cancel) /\
    EvCancel ∉ events.
Proof.
  intros ct Hgate Hmethod Hfind Htimeout.
  rewrite (ServeHTTP_selected canonicalizeContentType h ph rw request w
             Hgate Hmethod Hfind).
  pose proof (serveStream_run h ph rw request ct w) as Hrun.
  cbv zeta in Hrun. rewrite Htimeout in Hrun. fold ct.
  destruct (NewConn ph rw _ s1) as [[cc|] s2].
  - destruct timeoutErr as [e|].
    + rewrite Hrun. eexists [_; _; _], _. split; [reflexivity|]. no_cancel.
    + destruct (implementation h ctx (HCC_conn cc) s2) as [[err|v] s3]; rewrite Hrun.
      * eexists [_; _; _; _], _. split; [reflexivity|]. no_cancel.
      * eexists [_; _; _], _. split; [reflexivity|]. no_cancel.
  - rewrite Hrun. eexists [_; _], _. split; [reflexivity|]. no_cancel.
Qed.

(** The serving path in full: [SetTimeout], [NewConn] on the request with
    the context [SetTimeout] derived, the implementation with that same
    context, [Close] with what the implementation returned, then cancel.
    What [Close] itself returns is dropped. *)
Theorem ServeHTTP_serving_order (h : Handler) (ph : protocolHandler)
    (rw : ResponseWriter) (request : HTTPRequest) (w : World)
    (ctx : Context) (cancel : option CancelFunc)
    (cc : handlerConnCloser IO) (s1 s2 s3 : IO) (err : option error) :
  let ct := requestContentType canonicalizeContentType request (io w) in
  isBidi h && (ProtoMajor request <? 2)%Z = false ->
  Method request = MethodPost ->
  findProtocolHandler h ct = Some ph ->
  SetTimeout ph request (withContentType request ct (io w))
  = ((ctx, cancel, None), s1) ->
  NewConn ph rw (WithContext request ctx) s1 = (Some cc, s2) ->
  implementation h ctx (HCC_conn cc) s2 = (Returns err, s3) ->
  ServeHTTP canonicalizeContentType h rw request w
  = (Done,
     mkWorld (runCancel cancel (HCC_Close cc err s3).2)
       (trace w
          ++ [EvSetTimeout request ct;
              EvNewConn (WithContext request ctx)
                (Get (contents (heap s1) (Request_Header_map request)) "Content-Type");
              EvImplementation ctx; EvClose err]
          ++ cancelEvents cancel)).
Proof.
  intros ct Hgate Hmethod Hfind Htimeout Hconn Himpl.
  rewrite (ServeHTTP_selected canonicalizeContentType h ph rw request w
             Hgate Hmethod Hfind).
  pose proof (serveStream_run h ph rw request ct w) as Hrun.
  cbv zeta in Hrun. rewrite Htimeout, Hconn, Himpl in Hrun. fold ct.
  by rewrite Hrun.
Qed.

End HandlerMore.

(** ** Handler construction *)

Section ConstructorMore.
Import Errors Header Connect Handler.
Context `{MessageTypes} {U : Type}.
Context (mergeHeaders : option loc -> option loc -> State (@IO U) unit).
Context {Codec compressionPool readOnlyCodecs readOnlyCompressionPools : Type}.

Local Abbreviation IO := (@IO U).
Local Abbreviation Handler := (@Handler _ U).
Local Abbreviation HandlerOption := (@HandlerOption _ U Codec compressionPool).
Local Abbreviation handlerConfig := (@handlerConfig _ U Codec compressionPool).
Local Abbreviation protocol :=
  (@protocol _ U readOnlyCodecs readOnlyCompressionPools).

Context (withProtoBinaryCodec withProtoJSONCodecs withGzip : HandlerOption).
Context (protocolConnect : protocol) (protocolGRPC : bool -> protocol).
Context (newReadOnlyCodecs : gmap string Codec -> readOnlyCodecs).
Context (newReadOnlyCompressionPools :
           gmap string compressionPool -> list string -> readOnlyCompressionPools).

Local Abbreviation handlerConfigOf :=
  (newHandlerConfig withProtoBinaryCodec withProtoJSONCodecs withGzip).
Local Abbreviation protocolHandlersOf :=
  (newProtocolHandlers protocolConnect protocolGRPC newReadOnlyCodecs
     newReadOnlyCompressionPools).
Local Abbreviation newUnaryHandler :=
  (NewUnaryHandler mergeHeaders withProtoBinaryCodec withProtoJSONCodecs withGzip
     protocolConnect protocolGRPC newReadOnlyCodecs newReadOnlyCompressionPools).
Local Abbreviation streamHandler :=
  (newStreamHandler withProtoBinaryCodec withProtoJSONCodecs withGzip
     protocolConnect protocolGRPC newReadOnlyCodecs newReadOnlyCompressionPools).
Local Abbreviation newClientStreamHandler :=
  (NewClientStreamHandler mergeHeaders withProtoBinaryCodec withProtoJSONCodecs withGzip
     protocolConnect protocolGRPC newReadOnlyCodecs newReadOnlyCompressionPools).
Local Abbreviation newServerStreamHandler :=
  (NewServerStreamHandler withProtoBinaryCodec withProtoJSONCodecs withGzip
     protocolConnect protocolGRPC newReadOnlyCodecs newReadOnlyCompressionPools).
Local Abbreviation newBidiStreamHandler :=
  (NewBidiStreamHandler withProtoBinaryCodec withProtoJSONCodecs withGzip
     protocolConnect protocolGRPC newReadOnlyCodecs newReadOnlyCompressionPools).

Local Abbreviation paramsOf c streamType :=
  (mkProtocolHandlerParams (newSpec c streamType) (newReadOnlyCodecs (Codecs c))
     (newReadOnlyCompressionPools (CompressionPools c) (CompressionNames c))
     (CompressMinBytes c) (Config_BufferPool c) (ReadMaxBytes c) (SendMaxBytes c)).

(** When the request message cannot be received, a unary handler returns
    the error of [Receive] as it is, whatever is configured: no
    interceptor and no user function is called and nothing is sent. *)
Theorem NewUnaryHandler_Receive_error (Req Res : ty) (procedure : string)
    (unary : Context -> Request (El Req) -> State IO (Response (El Res) + error))
    (options : list HandlerOption)
    (ctx : Context) (conn : StreamingHandlerConn IO) (s s1 : IO)
    (msg : El Req) (e : error) :
  HC_Receive conn Req (zero Req) s = ((msg, Some e), s1) ->
  implementation (newUnaryHandler Req Res procedure unary options) ctx conn s
  = (Returns (Some e), s1).
Proof.
  intros Hrecv. unfold NewUnaryHandler. cbn [implementation].
  unfold unaryImplementation, mbind, State_bind. by rewrite Hrecv.
Qed.

(** Without an interceptor and with a context that is not cancelled, the
    user's function is called with the message received and the spec, peer
    and header the stream gives; when it fails, its error is returned as it
    is and nothing is merged or sent. *)
Theorem NewUnaryHandler_user_error (Req Res : ty) (procedure : string)
    (unary : Context -> Request (El Req) -> State IO (Response (El Res) + error))
    (options : list HandlerOption)
    (ctx : Context) (conn : StreamingHandlerConn IO) (s s1 s5 : IO)
    (msg : El Req) (e : error) :
  Config_Interceptor (handlerConfigOf procedure options) = None ->
  Context_Err ctx = None ->
  HC_Receive conn Req (zero Req) s = ((msg, None), s1) ->
  unary ctx
    (mkRequest msg (HC_Spec conn s1).1
       (HC_Peer conn (HC_Spec conn s1).2).1
       (HC_RequestHeader conn (HC_Peer conn (HC_Spec conn s1).2).2).1)
    (HC_RequestHeader conn (HC_Peer conn (HC_Spec conn s1).2).2).2
  = (inr e, s5) ->
  implementation (newUnaryHandler Req Res procedure unary options) ctx conn s
  = (Returns (Some e), s5).
Proof.
  intros Hnone Hctx Hrecv Hcall. unfold NewUnaryHandler, wrapUnary.
  cbn [implementation]. rewrite Hnone.
  unfold mbind at 1. unfold State_bind at 1.
  erewrite (unaryImplementation_error mergeHeaders Req _ ctx conn s s1 s5 msg e Hrecv);
    [done|].
  unfold unaryAdapter. rewrite Hctx, assertRequest_same.
  unfold mbind, State_bind. by rewrite Hcall.
Qed.

(** Each constructor stamps its own stream type on the handler and marks it
    as the handler side; of the four, only the handler of
    [NewBidiStreamHandler] is bidirectional, so only it is subject to the
    HTTP/2 check. *)
Theorem constructors_stream_types (Req Res : ty) (procedure : string)
    (unary : Context -> Request (El Req) -> State IO (Response (El Res) + error))
    (client : Context -> ClientStream Req -> State IO (Response (El Res) + error))
    (server : Context -> Request (El Req) -> ServerStream Res -> State IO (option error))
    (bidi : Context -> BidiStream Req Res -> State IO (option error))
    (options : list HandlerOption) :
  let hu := newUnaryHandler Req Res procedure unary options in
  let hc := newClientStreamHandler Req Res procedure client options in
  let hs := newServerStreamHandler Req Res procedure server options in
  let hb := newBidiStreamHandler Req Res procedure bidi options in
  (Spec_StreamType (spec hu) = 0 /\ Spec_StreamType (spec hc) = 1 /\
   Spec_StreamType (spec hs) = 2 /\ Spec_StreamType (spec hb) = 3)%Z /\
  (isBidi hu = false /\ isBidi hc = false /\ isBidi hs = false /\ isBidi hb = true) /\
  Forall (fun h : Handler => Spec_IsClient (spec h) = false) [hu; hc; hs; hb].
Proof.
  repeat split. repeat constructor.
Qed.

(** Options that leave the procedure alone give a handler whose spec
    carries the normalised path of the procedure.  Its protocol handlers
    are those of Connect, of gRPC and of gRPC-Web, the latter two as they
    are enabled, each built by [NewHandler] from the same parameters:
    the handler's own spec and the codecs, compression pools, buffer pool
    and limits of the configuration. *)
Theorem handler_procedure_normalised (Req Res : ty) (procedure : string)
    (unary : Context -> Request (El Req) -> State IO (Response (El Res) + error))
    (options : list HandlerOption) :
  (forall c, Procedure (withProtoBinaryCodec c) = Procedure c) ->
  (forall c, Procedure (withProtoJSONCodecs c) = Procedure c) ->
  (forall c, Procedure (withGzip c) = Procedure c) ->
  Forall (fun opt : HandlerOption => forall c, Procedure (opt c) = Procedure c) options ->
  let h := newUnaryHandler Req Res procedure unary options in
  let config := handlerConfigOf procedure options in
  let params :=
    mkProtocolHandlerParams (spec h) (newReadOnlyCodecs (Codecs config))
      (newReadOnlyCompressionPools (CompressionPools config) (CompressionNames config))
      (CompressMinBytes config) (Config_BufferPool config)
      (ReadMaxBytes config) (SendMaxBytes config) in
  spec h = mkSpec StreamTypeUnary (ProtoPath.extractProtoPath procedure) false /\
  protocolHandlers h
  = NewHandler protocolConnect params
      :: (if HandleGRPC config then [NewHandler (protocolGRPC false) params] else [])
      ++ (if HandleGRPCWeb config then [NewHandler (protocolGRPC true) params] else []).
Proof.
  intros Hbin Hjson Hgzip Hopts h config params. split.
  - unfold h, NewUnaryHandler, newSpec. cbn [spec]. f_equal.
    unfold newHandlerConfig.
    assert (Hfold : forall opts (c : handlerConfig),
               Forall (fun opt : HandlerOption => forall c, Procedure (opt c) = Procedure c) opts ->
               Procedure (fold_left (fun config opt => opt config) opts c) = Procedure c).
    { induction opts as [|opt opts IH]; intros c Hall; simpl; [done|].
      inversion Hall as [|? ? Hopt Hrest]; subst. by rewrite (IH _ Hrest), Hopt. }
    by rewrite (Hfold _ _ Hopts), Hgzip, Hjson, Hbin.
  - unfold params, h, NewUnaryHandler. cbn [spec protocolHandlers].
    fold config. unfold newProtocolHandlers.
    by destruct (HandleGRPC config), (HandleGRPCWeb config).
Qed.

(** The protocol handlers are built in a fixed order: Connect first, then
    gRPC if it is enabled, then gRPC-Web if it is enabled.  So there is
    always a handler, and Connect's wins a content type that several
    handlers accept. *)
Theorem newProtocolHandlers_order (c : handlerConfig) (streamType : StreamType) :
  exists params,
    Params_Spec params = newSpec c streamType /\
    protocolHandlersOf c streamType
    = NewHandler protocolConnect params
        :: (if HandleGRPC c then [NewHandler (protocolGRPC false) params] else [])
        ++ (if HandleGRPCWeb c then [NewHandler (protocolGRPC true) params] else []).
Proof.
  unfold newProtocolHandlers. exists (paramsOf c streamType).
  split; [reflexivity|].
  by destruct (HandleGRPC c), (HandleGRPCWeb c).
Qed.

(** Without an interceptor, a server-streaming handler that cannot receive
    the request message returns the error of [Receive] and does not call
    the user's function. *)
Theorem NewServerStreamHandler_Receive_error (Req Res : ty) (procedure : string)
    (server : Context -> Request (El Req) -> ServerStream Res -> State IO (option error))
    (options : list HandlerOption)
    (ctx : Context) (conn : StreamingHandlerConn IO) (s s1 : IO)
    (msg : El Req) (e : error) :
  Config_Interceptor (handlerConfigOf procedure options) = None ->
  HC_Receive conn Req (zero Req) s = ((msg, Some e), s1) ->
  implementation (newServerStreamHandler Req Res procedure server options) ctx conn s
  = (Returns (Some e), s1).
Proof.
  intros Hnone Hrecv. unfold NewServerStreamHandler, newStreamHandler.
  cbn [implementation]. rewrite Hnone.
  unfold mbind, State_bind. by rewrite Hrecv.
Qed.

(** Without an interceptor, a client-streaming handler hands the user's
    function a stream around the connection; an error of that function is
    returned as it is, and nothing is merged or sent. *)
Theorem NewClientStreamHandler_user_error (Req Res : ty) (procedure : string)
    (client : Context -> ClientStream Req -> State IO (Response (El Res) + error))
    (options : list HandlerOption)
    (ctx : Context) (conn : StreamingHandlerConn IO) (s s1 : IO) (e : error) :
  Config_Interceptor (handlerConfigOf procedure options) = None ->
  client ctx (mkClientStream Req conn) s = (inr e, s1) ->
  implementation (newClientStreamHandler Req Res procedure client options) ctx conn s
  = (Returns (Some e), s1).
Proof.
  intros Hnone Hcall. unfold NewClientStreamHandler, newStreamHandler.
  cbn [implementation]. rewrite Hnone.
  unfold mbind, State_bind. by rewrite Hcall.
Qed.

(** Without an interceptor and with a context that is not cancelled, a
    response of the user's function is sent: the handler merges header and
    trailer, calls [Send] with the message of the response, and returns
    what [Send] returns. *)
Theorem NewUnaryHandler_sends_response (Req Res : ty) (procedure : string)
    (unary : Context -> Request (El Req) -> State IO (Response (El Res) + error))
    (options : list HandlerOption)
    (ctx : Context) (conn : StreamingHandlerConn IO) (s s1 s5 : IO)
    (msg : El Req) (response : Response (El Res)) :
  Config_Interceptor (handlerConfigOf procedure options) = None ->
  Context_Err ctx = None ->
  HC_Receive conn Req (zero Req) s = ((msg, None), s1) ->
  unary ctx
    (mkRequest msg (HC_Spec conn s1).1
       (HC_Peer conn (HC_Spec conn s1).2).1
       (HC_RequestHeader conn (HC_Peer conn (HC_Spec conn s1).2).2).1)
    (HC_RequestHeader conn (HC_Peer conn (HC_Spec conn s1).2).2).2
  = (inl response, s5) ->
  exists s6,
    implementation (newUnaryHandler Req Res procedure unary options) ctx conn s
    = let '(err, s7) := HC_Send conn (existT Res (Response_Msg response)) s6 in
      (Returns err, s7).
Proof.
  intros Hnone Hctx Hrecv Hcall. unfold NewUnaryHandler, wrapUnary.
  cbn [implementation]. rewrite Hnone.
  unfold unaryImplementation, unaryAdapter, mbind, State_bind, mret, State_ret.
  rewrite Hrecv.
  destruct (HC_Spec conn s1) as [sp s2]. cbn [fst snd] in *.
  destruct (HC_Peer conn s2) as [pr s3]. cbn [fst snd] in *.
  destruct (HC_RequestHeader conn s3) as [hd s4]. cbn [fst snd] in *.
  rewrite Hctx, assertRequest_same, Hcall.
  destruct (HC_ResponseHeader conn s5) as [into1 s6].
  destruct response as [rmsg [lh|] [lt|]];
    unfold liftHeap, Response_Header, Response_Trailer, make; cbn;
    unfold mbind, State_bind, mret, State_ret; cbn;
    repeat match goal with
      | |- context [mergeHeaders ?a ?b ?c] =>
          destruct (mergeHeaders a b c) as [[] ?]; cbn
      | |- context [HC_ResponseTrailer conn ?c] =>
          destruct (HC_ResponseTrailer conn c) as [? ?]; cbn
      end;
    eexists; unfold Response_Any; cbn; reflexivity.
Qed.

End ConstructorMore.

(** ** The further properties on the sample handlers *)

Section HandlerMoreSamples.
Import Errors Header Connect Handler Samples.

Lemma ServeHTTP_version_gate_witness :
  let run := serve (sampleHandler StreamTypeBidi (returning None))
                   (sampleRequest "POST" 1) "application/json" in
  run.1 = Done /\ trace run.2 = [] /\ written (io run.2) = Some (505%Z, ∅).
Proof.
  intros run.
  destruct (ServeHTTP_version_gate canonicalizeContentType
              (sampleHandler StreamTypeBidi (returning None)) sampleWriter
              (sampleRequest "POST" 1) (arriving "application/json"))
    as (Hdone & Htrace & _ & _ & Hwritten); [reflexivity|simpl; lia|].
  split; [exact Hdone|]. split; [exact Htrace|].
  exact (eq_trans (Hwritten eq_refl) eq_refl).
Defined.

Lemma ServeHTTP_refusals_are_local_witness :
  let run := serve (sampleHandler StreamTypeUnary (returning None))
                   (sampleRequest "POST" 2) "text/html" in
  trace run.2 = [] /\
  heap (io run.2) !! requestHeaderLoc = Some {[ "Content-Type" := ["text/html"] ]}.
Proof.
  intros run.
  destruct (ServeHTTP_refusals_are_local canonicalizeContentType
              (sampleHandler StreamTypeUnary (returning None)) sampleWriter
              (sampleRequest "POST" 2) (arriving "text/html"))
    as (_ & Htrace & _ & Hheap & _).
  - right; right. vm_compute. reflexivity.
  - split; [exact Htrace|].
    refine (eq_trans (Hheap requestHeaderLoc _) _); [discriminate|reflexivity].
Defined.

Lemma ServeHTTP_NewConn_refused_witness :
  let request := sampleRequest "POST" 2 in
  let run := serve (sampleHandler StreamTypeUnary (returning None)) request
                   "application/grpc-web" in
  run.1 = Done /\
  trace run.2 = [EvSetTimeout request "application/grpc-web";
                 EvNewConn request "application/grpc-web"] /\
  ext (io run.2) = [].
Proof.
  intros request run.
  assert (Hfind : findProtocolHandler (sampleHandler StreamTypeUnary (returning None))
                    (requestContentType canonicalizeContentType request
                       (io (arriving "application/grpc-web")))
                  = Some grpcWebHandler) by (vm_compute; reflexivity).
  pose proof (ServeHTTP_NewConn_refused canonicalizeContentType
                (sampleHandler StreamTypeUnary (returning None))
                grpcWebHandler sampleWriter request (arriving "application/grpc-web")
                background None None
                (selected request "application/grpc-web" "application/grpc-web")
                (selected request "application/grpc-web" "application/grpc-web")
                eq_refl eq_refl Hfind eq_refl eq_refl) as Hrun.
  split; [exact (f_equal fst Hrun)|]. split.
  - refine (eq_trans (f_equal (fun r => trace r.2) Hrun) _). vm_compute. reflexivity.
  - refine (eq_trans (f_equal (fun r => ext (io r.2)) Hrun) _). reflexivity.
Defined.

Lemma ServeHTTP_cancel_last_witness :
  let request := sampleRequest "POST" 2 in
  exists events s,
    (serve (sampleHandler StreamTypeUnary panicking) request "application/json").2
    = mkWorld ((note "cancel" s).2) ([] ++ events ++ [EvCancel]) /\
    EvCancel ∉ events.
Proof.
  intros request.
  assert (Hfind : findProtocolHandler (sampleHandler StreamTypeUnary panicking)
                    (requestContentType canonicalizeContentType request
                       (io (arriving "application/json")))
                  = Some connectHandler) by (vm_compute; reflexivity).
  exact (ServeHTTP_cancel_last canonicalizeContentType
           (sampleHandler StreamTypeUnary panicking)
           connectHandler sampleWriter request (arriving "application/json")
           derived (Some (note "cancel")) None
           (selected request "application/json" "application/json")
           eq_refl eq_refl Hfind eq_refl).
Defined.

Lemma ServeHTTP_serving_order_witness :
  let request := sampleRequest "POST" 2 in
  let run := serve (sampleHandler StreamTypeUnary (returning None)) request
                   "application/json" in
  trace run.2 = [EvSetTimeout request "application/json";
                 EvNewConn (WithContext request derived) "application/json";
                 EvImplementation derived; EvClose None; EvCancel] /\
  ext (io run.2) = ["implementation"; "Close"; "cancel"].
Proof.
  intros request run.
  assert (Hfind : findProtocolHandler (sampleHandler StreamTypeUnary (returning None))
                    (requestContentType canonicalizeContentType request
                       (io (arriving "application/json")))
                  = Some connectHandler) by (vm_compute; reflexivity).
  pose (s := selected request "application/json" "application/json").
  pose proof (ServeHTTP_serving_order canonicalizeContentType
                (sampleHandler StreamTypeUnary (returning None))
                connectHandler sampleWriter request (arriving "application/json")
                derived (Some (note "cancel")) sampleConnCloser s s
                (mkIO (heap s) (written s) ["implementation"]) None
                eq_refl eq_refl Hfind eq_refl eq_refl eq_refl) as Hrun.
  split.
  - refine (eq_trans (f_equal (fun r => trace r.2) Hrun) _). vm_compute. reflexivity.
  - refine (eq_trans (f_equal (fun r => ext (io r.2)) Hrun) _). reflexivity.
Defined.

Lemma NewUnaryHandler_Receive_error_witness :
  let run := implementation (sampleUnaryHandler pingUnary [WithInterceptor cachingInterceptor])
               background brokenStream inStream in
  run.1 = Returns (Some brokenBody) /\ ext run.2 = ["Receive"].
Proof.
  intros run.
  pose proof (NewUnaryHandler_Receive_error mergeHeaders
                (Codec := unit) (compressionPool := unit)
                (fun c => c) (fun c => c) (fun c => c)
                (sampleProtocol connectHandler)
                (fun web => sampleProtocol (if web then grpcWebHandler else grpcHandler))
                (fun _ => tt) (fun _ _ => tt)
                PingRequest PingResponse "https://example.com/acme.Foo/Bar" pingUnary
                [WithInterceptor cachingInterceptor]
                background brokenStream inStream
                (mkIO (heap inStream) (written inStream) ["Receive"]) ""
                brokenBody eq_refl) as Hrun.
  split; [exact (f_equal fst Hrun)|exact (f_equal (fun r => ext r.2) Hrun)].
Defined.

Lemma NewUnaryHandler_user_error_witness :
  let run := implementation (sampleUnaryHandler failingUnary [])
               background sampleStream inStream in
  run.1 = Returns (Some noSuchUser) /\ ext run.2 = ["Receive"; "unary ping"].
Proof.
  intros run.
  pose proof (NewUnaryHandler_user_error mergeHeaders
                (Codec := unit) (compressionPool := unit)
                (fun c => c) (fun c => c) (fun c => c)
                (sampleProtocol connectHandler)
                (fun web => sampleProtocol (if web then grpcWebHandler else grpcHandler))
                (fun _ => tt) (fun _ _ => tt)
                PingRequest PingResponse "https://example.com/acme.Foo/Bar" failingUnary
                []
                background sampleStream inStream
                (mkIO (heap inStream) (written inStream) ["Receive"])
                (mkIO (heap inStream) (written inStream) ["Receive"; "unary ping"])
                "ping" noSuchUser eq_refl eq_refl eq_refl eq_refl) as Hrun.
  split; [exact (f_equal fst Hrun)|exact (f_equal (fun r => ext r.2) Hrun)].
Defined.

Lemma NewUnaryHandler_sends_response_witness :
  exists s6,
    implementation (sampleUnaryHandler pingUnary []) background sampleStream inStream
    = let '(err, s7) := HC_Send sampleStream (existT PingResponse "pong") s6 in
      (Returns err, s7).
Proof.
  exact (NewUnaryHandler_sends_response mergeHeaders
           (Codec := unit) (compressionPool := unit)
           (fun c => c) (fun c => c) (fun c => c)
           (sampleProtocol connectHandler)
           (fun web => sampleProtocol (if web then grpcWebHandler else grpcHandler))
           (fun _ => tt) (fun _ _ => tt)
           PingRequest PingResponse "https://example.com/acme.Foo/Bar" pingUnary []
           background sampleStream inStream
           (mkIO (heap inStream) (written inStream) ["Receive"])
           (mkIO (heap inStream) (written inStream) ["Receive"; "unary"])
           "ping" (NewResponse "pong") eq_refl eq_refl eq_refl eq_refl).
Defined.

Lemma handler_procedure_normalised_witness :
  let h := sampleUnaryHandler pingUnary [WithInterceptor loggingInterceptor] in
  spec h = mkSpec 0%Z "/acme.Foo/Bar" false /\
  protocolHandlers h = [connectHandler; grpcHandler; grpcWebHandler].
Proof.
  intros h.
  destruct (handler_procedure_normalised mergeHeaders
              (Codec := unit) (compressionPool := unit)
              (fun c => c) (fun c => c) (fun c => c)
              (sampleProtocol connectHandler)
              (fun web => sampleProtocol (if web then grpcWebHandler else grpcHandler))
              (fun _ => tt) (fun _ _ => tt)
              PingRequest PingResponse "https://example.com/acme.Foo/Bar" pingUnary
              [WithInterceptor loggingInterceptor])
    as [Hspec Hhandlers]; [reflexivity|reflexivity|reflexivity| |].
  - constructor; [reflexivity|constructor].
  - split; [exact (eq_trans Hspec eq_refl)|exact (eq_trans Hhandlers eq_refl)].
Defined.

Lemma NewServerStreamHandler_Receive_error_witness :
  let run := implementation (sampleServerStreamHandler []) background brokenStream inStream in
  run.1 = Returns (Some brokenBody) /\ ext run.2 = ["Receive"].
Proof.
  intros run.
  pose proof (NewServerStreamHandler_Receive_error
                (Codec := unit) (compressionPool := unit)
                (fun c => c) (fun c => c) (fun c => c)
                (sampleProtocol connectHandler)
                (fun web => sampleProtocol (if web then grpcWebHandler else grpcHandler))
                (fun _ => tt) (fun _ _ => tt)
                PingRequest PingResponse "/acme.Foo/Count" quietServer []
                background brokenStream inStream
                (mkIO (heap inStream) (written inStream) ["Receive"]) ""
                brokenBody eq_refl eq_refl) as Hrun.
  split; [exact (f_equal fst Hrun)|exact (f_equal (fun r => ext r.2) Hrun)].
Defined.

Lemma NewClientStreamHandler_user_error_witness :
  let run := implementation (sampleClientStreamHandler []) background sampleStream inStream in
  run.1 = Returns (Some noSuchUser) /\ ext run.2 = ["client stream"].
Proof.
  intros run.
  pose proof (NewClientStreamHandler_user_error mergeHeaders
                (Codec := unit) (compressionPool := unit)
                (fun c => c) (fun c => c) (fun c => c)
                (sampleProtocol connectHandler)
                (fun web => sampleProtocol (if web then grpcWebHandler else grpcHandler))
                (fun _ => tt) (fun _ _ => tt)
                PingRequest PingResponse "/acme.Foo/Sum" failingClient []
                background sampleStream inStream
                (mkIO (heap inStream) (written inStream) ["client stream"])
                noSuchUser eq_refl eq_refl) as Hrun.
  split; [exact (f_equal fst Hrun)|exact (f_equal (fun r => ext r.2) Hrun)].
Defined.

End HandlerMoreSamples.
